(** * marcup: from Islandora metadata rows to the fields of a MARC record

    A shallow embedding of [src/marcup/__main__.py].  The program reads the
    rows of a CSV export (one dictionary per digital object), aggregates the
    cells of a column into frequency-ranked term lists, and appends the
    fields of one collection-level record in a fixed order.

    Conventions of the embedding:
    - a Python [str] is a [string]; the text is taken to be ASCII, so that
      [str.title], [str.lower], [str.strip] and [str.split] act on the
      characters below 128 as Python does;
    - a row is a [gmap string string]: the [dict] that [csv.DictReader]
      makes of a line with a cell for every column of the header, every cell
      a [str].  The [None] that the reader leaves in the cells a shorter
      line lacks is not represented: every statement is about rows whose
      cells are strings;
    - a counting [dict], whose iteration order is its insertion order, is an
      association list;
    - [self.fields] is passed from one method to the next, and a method that
      can raise returns a [result]: a raised exception leaves no record
      behind;
    - the table of [marcup.area_codes] and the date of the day are parameters
      of the constructor. *)

From Stdlib Require Import String Ascii ZArith DecimalString.
From stdpp Require Import base option list gmap strings sorting.

Open Scope string_scope.
Open Scope list_scope.
Open Scope nat_scope.

(** ** Python's built-in string operations *)

Module Py.

(** [str.isspace] on one ASCII character: TAB..CR, FS..US and the space. *)
Definition isspace (c : ascii) : bool :=
  let n := nat_of_ascii c in
  (Nat.leb 9 n && Nat.leb n 13) || (Nat.leb 28 n && Nat.leb n 32).

Definition isupper (c : ascii) : bool :=
  let n := nat_of_ascii c in Nat.leb 65 n && Nat.leb n 90.

Definition islower (c : ascii) : bool :=
  let n := nat_of_ascii c in Nat.leb 97 n && Nat.leb n 122.

Definition to_lower (c : ascii) : ascii :=
  if isupper c then ascii_of_nat (nat_of_ascii c + 32) else c.

Definition to_upper (c : ascii) : ascii :=
  if islower c then ascii_of_nat (nat_of_ascii c - 32) else c.

(** [s.lower()] *)
Fixpoint lower (s : string) : string :=
  match s with
  | EmptyString => EmptyString
  | String c r => String (to_lower c) (lower r)
  end.

(** [s.title()]: a cased character is upper-cased when the character before
    it is not cased, and lower-cased otherwise. *)
Fixpoint title_from (previous_is_cased : bool) (s : string) : string :=
  match s with
  | EmptyString => EmptyString
  | String c r =>
      if islower c then
        String (if previous_is_cased then c else to_upper c) (title_from true r)
      else if isupper c then
        String (if previous_is_cased then to_lower c else c) (title_from true r)
      else String c (title_from false r)
  end.

Definition title (s : string) : string := title_from false s.

(** [s.split(sep)] for a separator of one character: never empty, one more
    piece than there are separators. *)
Fixpoint split (sep : ascii) (s : string) : list string :=
  match s with
  | EmptyString => [EmptyString]
  | String c r =>
      if decide (c = sep) then EmptyString :: split sep r
      else match split sep r with
           | w :: ws => String c w :: ws
           | [] => [String c EmptyString]
           end
  end.

(** The pieces between white-space characters, empty ones included. *)
Fixpoint split_space (s : string) : list string :=
  match s with
  | EmptyString => [EmptyString]
  | String c r =>
      if isspace c then EmptyString :: split_space r
      else match split_space r with
           | w :: ws => String c w :: ws
           | [] => [String c EmptyString]
           end
  end.

(** [s.split()]: runs of white space separate, no empty piece is kept. *)
Definition split_ws (s : string) : list string :=
  filter (λ w, w ≠ EmptyString) (split_space s).

(** [sep.join(l)] *)
Definition join (sep : string) (l : list string) : string :=
  String.concat sep l.

Fixpoint lstrip (s : string) : string :=
  match s with
  | EmptyString => EmptyString
  | String c r => if isspace c then lstrip r else s
  end.

(** [s.strip()] *)
Definition strip (s : string) : string :=
  String.rev (lstrip (String.rev (lstrip s))).

Fixpoint drop_chars (n : nat) (s : string) : string :=
  match n, s with
  | S n', String _ r => drop_chars n' r
  | _, _ => s
  end.

(** The first occurrence of [needle] in [s]: what is before and after it. *)
Fixpoint find (needle s : string) : option (string * string) :=
  if String.prefix needle s then
    Some (EmptyString, drop_chars (String.length needle) s)
  else
    match s with
    | EmptyString => None
    | String c r =>
        match find needle r with
        | Some (before, after) => Some (String c before, after)
        | None => None
        end
    end.

(** [needle in s] *)
Definition contains (needle s : string) : bool :=
  if find needle s is Some _ then true else false.

(** [s.partition(sep)] *)
Definition partition (sep s : string) : string * string * string :=
  match find sep s with
  | Some (before, after) => (before, sep, after)
  | None => (s, EmptyString, EmptyString)
  end.

(** [s[0:n]] *)
Definition slice_to (n : nat) (s : string) : string := String.substring 0 n s.

(** [str(n)] for a count *)
Definition str_of_nat (n : nat) : string :=
  NilEmpty.string_of_uint (Nat.to_uint n).

(** [l[:m]] for a list and an integer bound, negative bounds counting from
    the end. *)
Definition take_to {A} (m : Z) (l : list A) : list A :=
  if (0 <=? m)%Z then take (Z.to_nat m) l
  else take (length l - Z.to_nat (- m)) l.

(** [sorted] is stable.  [before x y] says that [x], met first, stays in
    front of [y]. *)
Section sorted.
Context {A : Type} (before : A → A → bool).

Fixpoint insert (x : A) (l : list A) : list A :=
  match l with
  | [] => [x]
  | y :: r => if before x y then x :: l else y :: insert x r
  end.

Definition sorted (l : list A) : list A := foldr insert [] l.
End sorted.

(** [zip_longest(l, k, fillvalue=fill)] *)
Fixpoint zip_longest {A} (fill : A) (l k : list A) : list (A * A) :=
  match l, k with
  | [], _ => (λ y, (fill, y)) <$> k
  | _, [] => (λ x, (x, fill)) <$> l
  | x :: l', y :: k' => (x, y) :: zip_longest fill l' k'
  end.

End Py.


(** ** Values, fields and exceptions *)

(** The Python values that reach a field: strings, the integer of the default
    fallback indicator, and the [None] of a failed [dict.get]. *)
Inductive value :=
| Str (s : string)
| Int (n : Z)
| NoneV.

Coercion Str : string >-> value.

Global Instance value_eq_dec : EqDecision value.
Proof. solve_decision. Defined.

(** [pymarc.Field]: a control field holds data, any other field holds two
    indicators and its subfields, each a code with its value. *)
Inductive Field :=
| ControlField (tag : string) (data : string)
| DataField (tag : string) (indicators : value * value)
    (subfields : list (value * value)).

Global Instance Field_eq_dec : EqDecision Field.
Proof. solve_decision. Defined.

Definition tag_of (f : Field) : string :=
  match f with
  | ControlField tag _ => tag
  | DataField tag _ _ => tag
  end.

Inductive exn :=
| KeyError (key : string)
| IndexError (msg : string)
| TypeError (msg : string).

Inductive result (A : Type) :=
| Ok (a : A)
| Raise (e : exn).
Arguments Ok {A} a.
Arguments Raise {A} e.

Global Instance result_ret : MRet result := @Ok.
Global Instance result_bind : MBind result := λ A B f m,
  match m with
  | Ok a => f a
  | Raise e => Raise e
  end.

Abbreviation row := (gmap string string).

(** [row[key]] *)
Definition getitem (r : row) (key : string) : result string :=
  match r !! key with
  | Some v => Ok v
  | None => Raise (KeyError key)
  end.

(** [l[i]] *)
Definition index {A} (l : list A) (i : nat) : result A :=
  match l !! i with
  | Some x => Ok x
  | None => Raise (IndexError "list index out of range")
  end.

(** ** class MarcupRecord (the first definition, the base of IslandoraRecord) *)

Module MarcupRecord.

(** [Record.add_field] appends. *)
Definition add_field (fields : list Field) (f : Field) : list Field :=
  fields ++ [f].

(** [Field.convert_legacy_subfields]: a flat sequence code, value, code,
    value, ... read two by two. *)
Fixpoint convert_legacy_subfields (subfields : list value)
    : list (value * value) :=
  match subfields with
  | code :: v :: rest => (code, v) :: convert_legacy_subfields rest
  | _ => []
  end.

Definition add (fields : list Field) (tag : string)
    (indicators : value * value) (subfields : list value) : list Field :=
  add_field fields
    (DataField tag indicators (convert_legacy_subfields subfields)).

Definition _add_terms (tag : string) (indicators : value * value)
    (terms : list string) (extra_subfields : list value)
    (fields : list Field) : list Field :=
  foldl (λ fields term,
           if decide (term ≠ "")
           then add fields tag indicators (Str "a" :: Str term :: extra_subfields)
           else fields)
        fields terms.

(** The body of the loop of [_add_terms_multiple_vocabularies]. *)
Definition add_term_uri (tag : string) (first_indicator : value)
    (fallback_2nd_indicator : value) (fields : list Field)
    (tu : string * string) : list Field :=
  let '(t, u) := tu in
  if decide (Py.strip t ≠ "") then
    if Py.contains "id.loc.gov" u then
      add fields tag (first_indicator, Str "0") [Str "a"; Str t]
    else if Py.contains "id.worldcat.org/fast" u then
      add fields tag (first_indicator, Str "7")
        [Str "a"; Str t; Str "2"; Str "fast"]
    else if decide (u = "") then
      add fields tag (first_indicator, Str "7")
        [Str "a"; Str t; Str "2"; Str "local"]
    else
      add fields tag (first_indicator, fallback_2nd_indicator)
        [Str "a"; Str t]
  else fields.

Definition _add_terms_multiple_vocabularies (tag : string)
    (terms_uris : list (string * string)) (first_indicator : value)
    (fallback_2nd_indicator : value) (fields : list Field) : list Field :=
  foldl (add_term_uri tag first_indicator fallback_2nd_indicator)
        fields terms_uris.

(** The default of [fallback_2nd_indicator], the integer 4. *)
Definition default_fallback_2nd_indicator : value := Int 4.

Definition _repeat_subfields (terms : list value) (subfield : value)
    : list value :=
  terms ≫= λ term, [subfield; term].

(** The counting dictionary keeps its keys in insertion order; a key met
    again is incremented where it is. *)
Fixpoint _update_term_counting_dict {K} `{EqDecision K}
    (terms : list (K * nat)) (term : K) : list (K * nat) :=
  match terms with
  | [] => [(term, 1)]
  | (k, n) :: rest =>
      if decide (k = term) then (k, S n) :: rest
      else (k, n) :: _update_term_counting_dict rest term
  end.

(** The order of [key=lambda item: item[1], reverse=True]: an item stays
    in front of one that comes after it unless its count is smaller. *)
Definition by_count {K} (x y : K * nat) : bool := Nat.leb y.2 x.2.

(** [sorted(terms_counter.items(), key=lambda item: item[1], reverse=True)]
    and the projection on the keys. *)
Definition most_common {K} (terms_counter : list (K * nat)) : list K :=
  (Py.sorted by_count terms_counter).*1.

(** The body of the inner loop of [_get_terms]: one cell of one row. *)
Definition _get_terms_row (sep : ascii) (column : string)
    (terms_counter : list (string * nat)) (r : row) : list (string * nat) :=
  let t := default "" (r !! column) in
  if decide (t ≠ "") then
    if Py.contains (String sep "") t then
      let terms := Py.split sep t in
      foldl _update_term_counting_dict terms_counter terms
    else _update_term_counting_dict terms_counter t
  else terms_counter.

(** The two loops, columns outside and rows inside, then the sort from the
    most common to the least common. *)
Definition _get_terms (metadata : list row) (args : list string)
    (sep : ascii) : list string :=
  let terms_counter :=
    foldl (λ terms_counter column,
             foldl (_get_terms_row sep column) terms_counter metadata)
          [] args in
  most_common terms_counter.

Definition dont_capitalize : gset string :=
  list_to_set
    ["A"; "And"; "As"; "At"; "But"; "By"; "Down"; "For"; "From"; "If";
     "In"; "Into"; "Like"; "Near"; "Nor"; "Of"; "Off"; "On"; "Once";
     "Onto"; "Or"; "Over"; "Past"; "So"; "Than"; "That"; "To"; "Upon";
     "When"; "With"; "Yet"].

(** The body of the loop of [title_case] for the word at position [i]. *)
Definition title_case_word (len_capped i : nat) (word : string) : string :=
  let parts := Py.split "'" word in
  let word :=
    match parts with
    | p0 :: p1 :: _ => Py.join "'" [p0; Py.lower p1]
    | _ => word
    end in
  if decide (0 < i < len_capped - 1) then
    if decide (word ∈ dont_capitalize) then Py.lower word else word
  else word.

Definition title_case (title : string) : string :=
  let capped := Py.split_ws (Py.title title) in
  let len_capped := length capped in
  let final_title := imap (title_case_word len_capped) capped in
  Py.join " " final_title.

End MarcupRecord.

(** ** class IslandoraRecord(MarcupRecord) *)

(** The attributes the constructor receives or imports: the rows, the flag
    of the avian variant, the cap on the terms of a field, and the table of
    [marcup.area_codes], a module the record only reads. *)
Record self := Self {
  metadata : list row;
  avian : bool;
  max : Z;
  area_codes : gmap string string;
}.

Module IslandoraRecord.
Import MarcupRecord.

(** *** The aggregations *)

(** The body of the inner loop of [_get_terms_and_uris]. *)
Definition _get_terms_and_uris_row (column : string)
    (terms_counter : list (string * string * nat)) (r : row)
    : list (string * string * nat) :=
  let t := default " " (r !! column) in
  let u := default " " (r !! (column +:+ "_valueURI")) in
  if decide (t ≠ "") then
    if Py.contains ";" t then
      let ts := Py.split ";" t in
      let uris := Py.split ";" u in
      foldl _update_term_counting_dict terms_counter (Py.zip_longest "" ts uris)
    else _update_term_counting_dict terms_counter (t, u)
  else terms_counter.

Definition _get_terms_and_uris (metadata : list row) (args : list string)
    : list (string * string) :=
  let terms_counter :=
    foldl (λ terms_counter column,
             foldl (_get_terms_and_uris_row column) terms_counter metadata)
          [] args in
  most_common terms_counter.

Definition get_terms (s : self) (args : list string) : list string :=
  _get_terms (metadata s) args ";".

Definition get_personal_name_subjects (s : self) :=
  _get_terms_and_uris (metadata s) ["personal_name_subject"].
Definition get_corporate_name_subjects (s : self) :=
  _get_terms_and_uris (metadata s) ["corporate_name_subject"].
Definition get_event_subjects (s : self) := get_terms s ["event_subject"].
Definition get_topic_subjects (s : self) :=
  get_terms s ["topical_subject_fast"; "topical_subject_local"].
Definition get_geographic_terms (s : self) :=
  if avian s then get_terms s ["geographic_subject_geonames"]
  else get_terms s ["geographic_subject_fast"; "geographic_subject_local"].
Definition get_genre_forms (s : self) := get_terms s ["aat_genre"].
Definition get_personal_creators_contributors (s : self) :=
  get_terms s
    ["personal_creator"; "interviewee"; "interviewer"; "personal_contributor"].
Definition get_corporate_creators_contributors (s : self) :=
  get_terms s ["corporate_creator"; "corporate_contributor"].
Definition get_original_collections (s : self) :=
  get_terms s ["archival_collection"].
Definition get_original_call_numbers (s : self) :=
  get_terms s ["archival_call_number"].
Definition get_original_arks (s : self) := get_terms s ["finding_aid_ark"].
Definition get_languages (s : self) := get_terms s ["language"].

(** *** The derived values *)

Definition get_collection_descriptions (s : self)
    : result (string * string) :=
  r0 ← index (metadata s) 0;
  description ← getitem r0 "description";
  let '(bio_hist, _, summary) := Py.partition "The collection" description in
  if decide (summary ≠ "") then
    title ← getitem r0 "title";
    mret (bio_hist, title +:+ " " +:+ summary)
  else mret (bio_hist, summary).

Fixpoint first_disclaimer (rows : list row) : result string :=
  match rows with
  | [] => mret ""
  | r :: rest =>
      d ← getitem r "disclaimer";
      if decide (d ≠ "") then mret d else first_disclaimer rest
  end.

Definition get_disclaimer (s : self) : result string :=
  r0 ← index (metadata s) 0;
  if r0 !! "disclaimer" is Some _ then first_disclaimer (metadata s)
  else mret "".

Fixpoint count_objects (rows : list row) (count : nat) : result nat :=
  match rows with
  | [] => mret count
  | obj :: rest =>
      ark ← getitem obj "ark";
      count_objects rest (if decide (ark ≠ "") then S count else count)
  end.

Definition get_object_count (s : self) : result nat :=
  count_objects (drop 1 (metadata s)) 0.

Fixpoint collect_years (rows : list row) : result (list string) :=
  match rows with
  | [] => mret []
  | md :: rest =>
      d ← getitem md "date_original";
      years ← collect_years rest;
      mret (if decide (d ≠ "") then Py.slice_to 4 d :: years else years)
  end.

Definition get_years (s : self) : result (list string) :=
  years ← collect_years (metadata s);
  mret (Py.sorted String.leb years).

(** [self.years[0]] and [self.years[-1]] are read under a test of the
    length, so they are always there. *)
Definition get_date_range (years : list string) : string :=
  if decide (1 < length years) then
    default "" (years !! 0) +:+ "-" +:+ default "" (last years) +:+ "."
  else if decide (length years = 1) then default "" (years !! 0)
  else "".

Definition get_title (s : self) : result (list value) :=
  r0 ← index (metadata s) 0;
  title ← getitem r0 "title";
  let subfields := Py.split ":" title in
  s0 ← index subfields 0;
  if decide (length subfields = 2) then
    s1 ← index subfields 1;
    mret [Str "a"; Str (s0 +:+ " : "); Str "b"; Str (s1 +:+ ", ")]
  else mret [Str "a"; Str (s0 +:+ ", ")].

(** *** The fields *)

Definition add_041_field (s : self) (lang : option (list string))
    (fields : list Field) : list Field :=
  let lang := if lang is Some l then l else get_languages s in
  add fields "041" (Str " ", Str " ") (_repeat_subfields (Str <$> lang) (Str "a")).

(** The data of field 008; field 041 is appended on the way when there is
    more than one language.  [today] is [date.today().strftime('%y%m%d')]. *)
Definition generate_008_field (s : self) (today : string)
    (fields : list Field) : result (string * list Field) :=
  let lang := get_languages s in
  let fields :=
    if decide (1 < length lang) then add_041_field s (Some lang) fields
    else fields in
  lang0 ← index lang 0;
  mret (today +:+ "         iau     o           " +:+ lang0 +:+ " d", fields).

Definition add_geographic_area_codes (s : self)
    (geographic_terms : list string) (fields : list Field) : list Field :=
  let '(geographic_area_codes, in_iowa) :=
    foldl (λ '(codes, in_iowa) term,
             let in_iowa := if Py.contains "Iowa" term then true else in_iowa in
             match area_codes s !! term with
             | Some code => (codes ++ [Str code], in_iowa)
             | None => (codes, in_iowa)
             end)
          ([], false) geographic_terms in
  let geographic_area_codes :=
    if in_iowa
    then geographic_area_codes ++ [from_option Str NoneV (area_codes s !! "Iowa")]
    else geographic_area_codes in
  if decide (geographic_area_codes ≠ []) then
    add fields "043" (Str " ", Str " ")
      (_repeat_subfields geographic_area_codes (Str "a"))
  else fields.

Definition add_preferred_citation (s : self) (digital_collection : string)
    (fields : list Field) : list Field :=
  let original_collections := get_original_collections s in
  let original_call_numbers := get_original_call_numbers s in
  let originals_string :=
    Py.join " "
      ((λ c : string * string, title_case c.1 +:+ ", " +:+ c.2) <$>
         zip (Py.take_to (max s) original_collections)
             (Py.take_to (max s) original_call_numbers)) in
  let citation_string :=
    digital_collection +:+ ", " +:+ originals_string +:+
    ", Special Collections and University Archives, Iowa State University Library." in
  add fields "524" (Str " ", Str " ") [Str "a"; Str citation_string].

Definition add_original_versions (physical_collections
    physical_call_numbers : list string) (fields : list Field) : list Field :=
  foldl (λ fields (c : string * string),
           add fields "534" (Str " ", Str " ")
             [Str "p"; Str "Originals can be found in:";
              Str "t"; Str (title_case c.1);
              Str "o"; Str c.2;
              Str "l";
              Str "Special Collections and University Archives, Iowa State University Library."])
        fields (zip physical_collections physical_call_numbers).

Definition add_personal_name_subjects (s : self) (fields : list Field) :=
  let names_uris := Py.take_to (max s) (get_personal_name_subjects s) in
  _add_terms_multiple_vocabularies "600" names_uris (Str "1")
    default_fallback_2nd_indicator fields.

Definition add_corporate_name_subjects (s : self) (fields : list Field) :=
  let names_uris := Py.take_to (max s) (get_corporate_name_subjects s) in
  _add_terms_multiple_vocabularies "610" names_uris (Str "2")
    default_fallback_2nd_indicator fields.

Definition add_topic_subjects (s : self) (fields : list Field) :=
  let topics := Py.take_to (max s) (get_topic_subjects s) in
  _add_terms "650" (Str " ", Str "7") topics [Str "2"; Str "fast"] fields.

Definition add_geographic_subjects (s : self) (fields : list Field) :=
  let places := Py.take_to (max s) (get_geographic_terms s) in
  _add_terms "651" (Str " ", Str "7") places [Str "2"; Str "fast"] fields.

Definition add_genre_forms (s : self) (fields : list Field) :=
  let genres := get_genre_forms s in
  _add_terms "655" (Str " ", Str "7") genres [Str "2"; Str "aat"] fields.

Definition add_personal_creators_contributors (s : self) (fields : list Field) :=
  let names := Py.take_to (max s) (get_personal_creators_contributors s) in
  _add_terms "700" (Str "1", Str " ") names [] fields.

Definition add_corperate_creators_contributors (s : self) (fields : list Field) :=
  let names := Py.take_to (max s) (get_corporate_creators_contributors s) in
  _add_terms "710" (Str "2", Str " ") names [] fields.

Definition add_finding_aid_links (s : self) (fields : list Field) :=
  let finding_aids := Py.take_to (max s) (get_original_collections s) in
  let finding_aid_arks := Py.take_to (max s) (get_original_arks s) in
  foldl (λ fields '(finding_aid, ark),
           add fields "856" (Str "4", Str "2")
             [Str "3"; Str ("Finding aid for " +:+ title_case finding_aid);
              Str "u"; Str ark])
        fields (zip finding_aids finding_aid_arks).

(** *** The physical collections with their counts and call numbers *)

(** The dictionary a collection maps to: its keys count and call_number. *)
Record collection_info := CollectionInfo {
  info_count : nat;
  info_call_number : string;
}.

(** [physical_collections[key]["count"] += 1], the key keeping its place. *)
Fixpoint increment_count (physical_collections : list (string * collection_info))
    (key : string) : list (string * collection_info) :=
  match physical_collections with
  | [] => []
  | (k, info) :: rest =>
      if decide (k = key)
      then (k, CollectionInfo (S (info_count info)) (info_call_number info)) :: rest
      else (k, info) :: increment_count rest key
  end.

(** The body of the loop of [get_physical_collection_info]: the call number
    is read only when the collection is met for the first time. *)
Definition count_physical_collection
    (physical_collections : list (string * collection_info)) (obj : row)
    : result (list (string * collection_info)) :=
  archival_collection ← getitem obj "archival_collection";
  if decide (archival_collection ∈ physical_collections.*1) then
    mret (increment_count physical_collections archival_collection)
  else
    call_number ← getitem obj "archival_call_number";
    mret (physical_collections ++
          [(archival_collection, CollectionInfo 1 call_number)]).

Fixpoint count_physical_collections (rows : list row)
    (physical_collections : list (string * collection_info))
    : result (list (string * collection_info)) :=
  match rows with
  | [] => mret physical_collections
  | obj :: rest =>
      physical_collections ← count_physical_collection physical_collections obj;
      count_physical_collections rest physical_collections
  end.

Definition get_physical_collection_info (s : self)
    : result (list (string * collection_info)) :=
  physical_collections ← count_physical_collections (metadata s) [];
  mret (Py.sorted
          (λ x y : string * collection_info,
             Nat.leb (info_count y.2) (info_count x.2))
          physical_collections).

(** *** The constructor

    [super().__init__(metadata)] keeps the rows and the table and leaves
    [avian] at its default [False]; [max] is set next.  The five leader
    positions the constructor writes are not fields and are left out.
    The result is [self.fields]. *)
Definition __init__ (table : gmap string string) (today : string)
    (metadata : list row) (max : Z) : result (list Field) :=
  let s := Self metadata false max table in
  disclaimer ← get_disclaimer s;
  collection_metadata ← index metadata 0;
  digital_collection ← getitem collection_metadata "digital_collection";
  let physical_collections := get_original_collections s in
  let physical_call_numbers := get_original_call_numbers s in
  years ← get_years s;
  let geographic_terms := get_geographic_terms s in
  '(bio_hist, summary) ← get_collection_descriptions s;
  let fields := [] in
  (* 008 (also adds the 041 field as needed) *)
  '(data, fields) ← generate_008_field s today fields;
  let fields := add_field fields (ControlField "008" data) in
  (* Cataloging source *)
  let fields :=
    add fields "040" (Str " ", Str " ")
      [Str "a"; Str "IWA"; Str "b"; Str "eng"; Str "e"; Str "dacs";
       Str "e"; Str "rda"; Str "c"; Str "IWA"] in
  (* Geographic area code (043) *)
  let fields := add_geographic_area_codes s geographic_terms fields in
  (* Title statement *)
  title ← get_title s;
  let fields :=
    add fields "245" (Str " ", Str " ")
      (title ++ [Str "f"; Str (get_date_range years)]) in
  (* Production and copyright notice *)
  let fields :=
    add fields "264" (Str " ", Str "1")
      [Str "a"; Str "Ames, Iowa :"; Str "b"; Str "Iowa State University Library,"] in
  (* Physical description *)
  object_count ← get_object_count s;
  let fields :=
    add fields "300" (Str " ", Str " ")
      [Str "a";
       Str ("1 online resource (" +:+ Py.str_of_nat object_count +:+
            " digital objects)")] in
  (* Biographical or historical data *)
  let fields := add fields "545" (Str " ", Str " ") [Str "a"; Str bio_hist] in
  (* Summary *)
  let fields := add fields "520" (Str "2", Str " ") [Str "a"; Str summary] in
  (* Restriction on access note *)
  let fields :=
    add fields "506" (Str " ", Str " ")
      [Str "a";
       Str "For copyright and re-use status, please consult the individual objects record."] in
  (* Preferred citation of described material note *)
  let fields := add_preferred_citation s digital_collection fields in
  (* Original version note *)
  let fields :=
    add_original_versions physical_collections physical_call_numbers fields in
  (* Disclaimer *)
  let fields :=
    if decide (disclaimer ≠ "")
    then add fields "500" (Str " ", Str " ") [Str "a"; Str disclaimer]
    else fields in
  let fields := add_personal_name_subjects s fields in
  let fields := add_corporate_name_subjects s fields in
  let fields := add_topic_subjects s fields in
  let fields := add_geographic_subjects s fields in
  let fields := add_genre_forms s fields in
  let fields := add_personal_creators_contributors s fields in
  let fields := add_corperate_creators_contributors s fields in
  (* Added entry: corporate name *)
  let fields :=
    add fields "710" (Str "2", Str " ")
      [Str "a"; Str "Iowa State University."; Str "b"; Str "Library";
       Str "b"; Str "Digital Collections."] in
  (* Electronic location and access (of digital collection) *)
  title856 ← getitem collection_metadata "title";
  ark856 ← getitem collection_metadata "ark";
  let fields :=
    add fields "856" (Str "4", Str "0")
      [Str "3"; Str title856; Str "u"; Str ark856] in
  (* Electronic location and access (of finding aid) *)
  mret (add_finding_aid_links s fields).

(** The parameters of the constructor after [metadata] are [max] alone:
    a call binds the keyword [max] and raises on any other keyword. *)
Fixpoint bind_keywords (kwargs : list (string * Z)) (max : Z) : result Z :=
  match kwargs with
  | [] => mret max
  | (name, v) :: rest =>
      if decide (name = "max") then bind_keywords rest v
      else Raise (TypeError
             ("__init__() got an unexpected keyword argument '" +:+ name +:+ "'"))
  end.

(** [IslandoraRecord(metadata, **kwargs)], keyword values being integers
    ([True] is the integer 1). *)
Definition new (table : gmap string string) (today : string)
    (metadata : list row) (kwargs : list (string * Z)) : result (list Field) :=
  max ← bind_keywords kwargs 5%Z;
  __init__ table today metadata max.
End IslandoraRecord.

(** ** main

    [args_avian] is the command-line flag and [digital_collection_metadata]
    the rows read from the CSV file; the result is the field list of the
    record that is written out. *)
Definition main (table : gmap string string) (today : string)
    (args_avian : bool) (digital_collection_metadata : list row)
    : result (list Field) :=
  if args_avian then
    IslandoraRecord.new table today digital_collection_metadata [("avian", 1%Z)]
  else
    IslandoraRecord.new table today digital_collection_metadata [].

(** ** class MarcupRecord, the second definition

    The file defines [MarcupRecord] a second time, after [IslandoraRecord].
    Its aggregator differs from the first in the default of a missing cell. *)

Module MarcupRecord2.
Import MarcupRecord.

(** The body of the inner loop of [_get_terms]. *)
Definition _get_terms_row (column : string)
    (terms_counter : list (string * nat)) (r : row) : list (string * nat) :=
  let t := default " " (r !! column) in
  if decide (t ≠ "") then
    if Py.contains ";" t then
      let terms := Py.split ";" t in
      foldl _update_term_counting_dict terms_counter terms
    else _update_term_counting_dict terms_counter t
  else terms_counter.

Definition _get_terms (metadata : list row) (args : list string)
    : list string :=
  let terms_counter :=
    foldl (λ terms_counter column,
             foldl (_get_terms_row column) terms_counter metadata)
          [] args in
  most_common terms_counter.
End MarcupRecord2.

(** ** Vocabulary of the statements *)

(** The terms one cell hands to the counter of the plain aggregator. *)
Definition cell_terms (sep : ascii) (t : string) : list string :=
  if decide (t ≠ "") then
    if Py.contains (String sep "") t then Py.split sep t else [t]
  else [].

(** The terms handed to the counter, in the order of the scan: column after
    column, and within a column row after row. *)
Definition scanned_terms (metadata : list row) (args : list string)
    (sep : ascii) : list string :=
  column ← args; r ← metadata; cell_terms sep (default "" (r !! column)).

(** The (term, uri) pairs one row hands to the counter of the paired
    aggregator. *)
Definition row_terms_and_uris (column : string) (r : row)
    : list (string * string) :=
  let t := default " " (r !! column) in
  let u := default " " (r !! (column +:+ "_valueURI")) in
  if decide (t ≠ "") then
    if Py.contains ";" t then Py.zip_longest "" (Py.split ";" t) (Py.split ";" u)
    else [(t, u)]
  else [].

Definition scanned_terms_and_uris (metadata : list row) (args : list string)
    : list (string * string) :=
  column ← args; r ← metadata; row_terms_and_uris column r.

(** How many times [x] was handed to the counter. *)
Definition occurrences {K} `{EqDecision K} (x : K) (l : list K) : nat :=
  length (filter (x =.) l).

(** The distinct elements of [l], each at the place where it is first met. *)
Definition first_seen {K} `{EqDecision K} (l : list K) : list K :=
  foldl (λ acc x, if decide (x ∈ acc) then acc else acc ++ [x]) [] l.

(** [marker] occurs somewhere inside [u]. *)
Definition occurs_in (marker u : string) : Prop :=
  ∃ pre post, u = pre +:+ marker +:+ post.

(** Nothing but white space. *)
Definition blank (t : string) : Prop :=
  Forall (λ c, Py.isspace c = true) (list_ascii_of_string t).

(** The decision order of the name and subject entries, in the words of the
    specification: what one (term, uri) pair contributes to the record. *)
Definition classification_rule (tag : string) (first_indicator fallback : value)
    (t u : string) (emitted : list Field) : Prop :=
  (blank t → emitted = []) ∧
  (¬ blank t → occurs_in "id.loc.gov" u →
   emitted = [DataField tag (first_indicator, Str "0") [(Str "a", Str t)]]) ∧
  (¬ blank t → ¬ occurs_in "id.loc.gov" u → occurs_in "id.worldcat.org/fast" u →
   emitted = [DataField tag (first_indicator, Str "7")
                [(Str "a", Str t); (Str "2", Str "fast")]]) ∧
  (¬ blank t → ¬ occurs_in "id.loc.gov" u → ¬ occurs_in "id.worldcat.org/fast" u →
   u = "" →
   emitted = [DataField tag (first_indicator, Str "7")
                [(Str "a", Str t); (Str "2", Str "local")]]) ∧
  (¬ blank t → ¬ occurs_in "id.loc.gov" u → ¬ occurs_in "id.worldcat.org/fast" u →
   u ≠ "" →
   emitted = [DataField tag (first_indicator, fallback) [(Str "a", Str t)]]).

(** A letter of the ASCII alphabet, and a word made of letters only. *)
Definition letter (c : ascii) : bool := Py.isupper c || Py.islower c.

Definition word (w : string) : Prop :=
  w ≠ "" ∧ Forall (λ c, letter c = true) (list_ascii_of_string w).

(** The character [c] does not occur in [s]. *)
Definition free_of (c : ascii) (s : string) : Prop :=
  Forall (λ x, x ≠ c) (list_ascii_of_string s).

(** The first letter in upper case, the others in lower case. *)
Definition capitalize (w : string) : string :=
  match w with
  | EmptyString => EmptyString
  | String c r => String (Py.to_upper c) (Py.lower r)
  end.







(** The call number of the first pair (collection, call number) whose
    collection is [k]. *)
Definition first_call_number (k : string) (pairs : list (string * string))
    : string :=
  default "" (snd <$> head (filter (λ p, p.1 = k) pairs)).

(** The dictionary of the physical collections after the rows whose cells
    are [pairs]: every distinct collection where it is first met, with the
    number of its rows and the call number of its first row. *)
Definition physical_collections_of (pairs : list (string * string))
    : list (string * IslandoraRecord.collection_info) :=
  (λ k, (k, IslandoraRecord.CollectionInfo (occurrences k pairs.*1)
              (first_call_number k pairs)))
    <$> first_seen pairs.*1.

(** The columns the constructor of [IslandoraRecord] reads, in a row or
    through an aggregation. *)
Definition columns_read : list string :=
  ["disclaimer"; "digital_collection"; "archival_collection";
   "archival_call_number"; "date_original"; "geographic_subject_fast";
   "geographic_subject_local"; "description"; "title"; "language"; "ark";
   "personal_name_subject"; "personal_name_subject_valueURI";
   "corporate_name_subject"; "corporate_name_subject_valueURI";
   "topical_subject_fast"; "topical_subject_local"; "aat_genre";
   "personal_creator"; "interviewee"; "interviewer"; "personal_contributor";
   "corporate_creator"; "corporate_contributor"; "finding_aid_ark"].

(** Two rows have the same cell, or both none, in every column of [columns]. *)
Definition agree_on (columns : list string) (r r' : row) : Prop :=
  Forall (λ column, r !! column = r' !! column) columns.

(** ** Sample collections *)

(** Two objects, the first in two languages. *)
Definition two_language_rows : list row :=
  [ {[ "title" := "Papers: letters"; "digital_collection" := "Papers online";
       "ark" := "ark:/1"; "description" := "A farmer. The collection holds letters.";
       "date_original" := "1950-03-01"; "language" := "eng;fre" ]};
    {[ "ark" := "ark:/2"; "date_original" := "1962"; "language" := "eng" ]} ].

Definition two_language_fields : list Field :=
  Eval vm_compute in
    match IslandoraRecord.__init__ ∅ "261104" two_language_rows 5 with
    | Ok fields => fields
    | Raise _ => []
    end.

(** One object with six topics, six genres and six physical collections. *)
Definition six_term_rows : list row :=
  [ {[ "title" := "Papers"; "digital_collection" := "Papers online";
       "ark" := "ark:/1"; "description" := "A farmer.";
       "date_original" := "1950"; "language" := "eng";
       "topical_subject_fast" := "t1;t2;t3;t4;t5;t6";
       "aat_genre" := "g1;g2;g3;g4;g5;g6";
       "archival_collection" := "c1;c2;c3;c4;c5;c6";
       "archival_call_number" := "n1;n2;n3;n4;n5;n6" ]} ].

Definition count_tag (tag : string) (fields : list Field) : nat :=
  length (filter (λ f, tag_of f = tag) fields).

Definition six_term_fields : list Field :=
  Eval vm_compute in
    match IslandoraRecord.__init__ ∅ "261104" six_term_rows 5 with
    | Ok fields => fields
    | Raise _ => []
    end.

(** * Properties *)

(** ** The stable sort *)

Section sorted_facts.
Context {A : Type} (before : A → A → bool).

Lemma insert_Permutation x l : Py.insert before x l ≡ₚ x :: l.
Proof.
  induction l as [|y l IH]; simpl; [done|].
  destruct (before x y); [done|].
  rewrite IH. apply Permutation_swap.
Qed.

Lemma sorted_Permutation l : Py.sorted before l ≡ₚ l.
Proof.
  induction l as [|x l IH]; simpl; [done|].
  by rewrite insert_Permutation, IH.
Qed.

Lemma insert_Forall (P : A → Prop) x l :
  P x → Forall P l → Forall P (Py.insert before x l).
Proof. intros Hx Hl. rewrite insert_Permutation. by constructor. Qed.

Lemma insert_StronglySorted x l :
  (∀ a b, before a b = false → before b a = true) →
  (∀ a b c, before a b = true → before b c = true → before a c = true) →
  StronglySorted (λ a b, before a b = true) l →
  StronglySorted (λ a b, before a b = true) (Py.insert before x l).
Proof.
  intros Htot Htrans. induction 1 as [|y l Hl IH Hy]; simpl.
  - repeat constructor.
  - destruct (before x y) eqn:Hxy.
    + constructor; [by constructor|].
      constructor; [done|]. eapply Forall_impl; [exact Hy|].
      intros c Hc. by eapply Htrans.
    + constructor; [done|]. apply insert_Forall; auto.
Qed.

Lemma sorted_StronglySorted l :
  (∀ a b, before a b = false → before b a = true) →
  (∀ a b c, before a b = true → before b c = true → before a c = true) →
  StronglySorted (λ a b, before a b = true) (Py.sorted before l).
Proof.
  intros Htot Htrans. induction l as [|x l IH]; simpl; [constructor|].
  by apply insert_StronglySorted.
Qed.

(** Stability: among elements that may not overtake one another, the sort
    changes nothing. *)
Lemma filter_insert (P : A → Prop) `{!∀ x, Decision (P x)} x l :
  (∀ y, P x → P y → before x y = true) →
  filter P (Py.insert before x l) = filter P (x :: l).
Proof.
  intros Hties. induction l as [|y l IH]; simpl; [done|].
  destruct (before x y) eqn:Hxy; [done|].
  rewrite filter_cons, IH, !filter_cons.
  destruct (decide (P y)) as [Hy|], (decide (P x)) as [Hx|]; try done.
  specialize (Hties y Hx Hy). congruence.
Qed.

Lemma sorted_stable (P : A → Prop) `{!∀ x, Decision (P x)} l :
  (∀ x y, P x → P y → before x y = true) →
  filter P (Py.sorted before l) = filter P l.
Proof.
  intros Hties. induction l as [|x l IH]; simpl; [done|].
  rewrite filter_insert by auto. by rewrite !filter_cons, IH.
Qed.
End sorted_facts.

Lemma lookup_sublist {A} (l : list A) i j a b :
  i < j → l !! i = Some a → l !! j = Some b → [a; b] `sublist_of` l.
Proof.
  intros Hij Hi Hj.
  apply list_elem_of_split_length in Hi as (l1 & l2 & -> & ->).
  rewrite lookup_app_r in Hj by lia.
  destruct (j - length l1) as [|k] eqn:Hk; [lia|]. simpl in Hj.
  apply sublist_inserts_l, sublist_skip.
  apply list_elem_of_split_length in Hj as (l3 & l4 & -> & _).
  apply sublist_inserts_l, sublist_skip, sublist_nil_l.
Qed.

Lemma StronglySorted_lookup {A} (R : relation A) l i j a b :
  StronglySorted R l → i < j → l !! i = Some a → l !! j = Some b → R a b.
Proof.
  intros Hl. revert i j. induction Hl as [|x l Hl IH Hx]; intros i j Hij Hi Hj.
  - done.
  - destruct i as [|i], j as [|j]; simplify_eq/=; try lia.
    + rewrite Forall_forall in Hx. apply Hx. by eapply list_elem_of_lookup_2.
    + eapply (IH i j); [lia|done..].
Qed.

Lemma sublist_filter_pair {A} (P : A → Prop) `{!∀ x, Decision (P x)} l a b :
  P a → P b → [a; b] `sublist_of` l → [a; b] `sublist_of` filter P l.
Proof.
  intros Ha Hb. induction l as [|x l IH]; intros Hs.
  - by apply sublist_nil_r in Hs.
  - rewrite filter_cons. apply sublist_cons_r in Hs as [Hs|(l' & [= <- <-] & Hs)].
    + destruct (decide (P x)); [apply sublist_cons|]; auto.
    + rewrite decide_True by done. apply sublist_skip.
      clear IH. induction l as [|y l IH]; [by apply sublist_nil_r in Hs|].
      rewrite filter_cons. apply sublist_cons_r in Hs as [Hs|(l' & [= <- <-] & Hs)].
      * destruct (decide (P y)); [apply sublist_cons|]; auto.
      * rewrite decide_True by done. apply sublist_skip, sublist_nil_l.
  Qed.

(** ** The counting dictionary *)

Section counting.
Context {K : Type} `{EqDecision K}.
Implicit Types (l : list K) (x k : K).
Import MarcupRecord.

Lemma first_seen_snoc l x :
  first_seen (l ++ [x]) =
  if decide (x ∈ first_seen l) then first_seen l else first_seen l ++ [x].
Proof. unfold first_seen. by rewrite foldl_snoc. Qed.

Lemma elem_of_first_seen l x : x ∈ first_seen l ↔ x ∈ l.
Proof.
  induction l as [|y l IH] using rev_ind; [done|].
  rewrite first_seen_snoc. case_decide as Hy.
  - rewrite elem_of_app, list_elem_of_singleton, IH.
    split; [by left|]. intros [?| ->]; [done|]. by apply IH.
  - by rewrite !elem_of_app, IH.
Qed.

Lemma NoDup_first_seen l : NoDup (first_seen l).
Proof.
  induction l as [|y l IH] using rev_ind; [constructor|].
  rewrite first_seen_snoc. case_decide as Hy; [done|].
  apply NoDup_app. split_and!; [done| |apply NoDup_singleton].
  intros z Hz ->%list_elem_of_singleton. done.
Qed.

(** An element in front of another in [first_seen l] is met in [l] before
    the other one is. *)
Lemma first_seen_order l a b :
  [a; b] `sublist_of` first_seen l →
  ∃ p q, l = p ++ a :: q ∧ (a ∉ p) ∧ (b ∉ p).
Proof.
  induction l as [|x l IH] using rev_ind; intros Hs.
  - by apply sublist_nil_r in Hs.
  - rewrite first_seen_snoc in Hs. case_decide as Hx.
    + destruct (IH Hs) as (p & q & -> & ? & ?).
      exists p, (q ++ [x]). by rewrite <-app_assoc.
    + apply sublist_app_r in Hs as (l1 & l2 & Heq & Hl1 & Hl2).
      apply sublist_cons_r in Hl2 as [->%sublist_nil_r|(l' & -> & ->%sublist_nil_r)].
      * rewrite app_nil_r in Heq. subst l1.
        destruct (IH Hl1) as (p & q & -> & ? & ?).
        exists p, (q ++ [x]). by rewrite <-app_assoc.
      * destruct l1 as [|a' [|b' r]]; simpl in Heq; [done| |].
        2:{ injection Heq as _ _ Hr. by destruct r. }
        injection Heq as <- <-.
        assert (a ∈ l) as Ha.
        { apply elem_of_first_seen. eapply sublist_subseteq; [done|]. by left. }
        apply list_elem_of_split_l in Ha as (p & q & -> & Hp).
        exists p, (q ++ [b]). rewrite <-app_assoc. split_and!; [done..|].
        intros Hb. apply Hx, elem_of_first_seen, elem_of_app. by left.
Qed.

Lemma occurrences_snoc k l x :
  occurrences k (l ++ [x]) =
  if decide (k = x) then S (occurrences k l) else occurrences k l.
Proof.
  unfold occurrences. rewrite filter_app, length_app, filter_cons.
  case_decide; simpl; lia.
Qed.

Lemma occurrences_pos k l : 0 < occurrences k l ↔ k ∈ l.
Proof.
  unfold occurrences. split.
  - intros Hlen. destruct (filter (k =.) l) as [|y r] eqn:Hf; [simpl in Hlen; lia|].
    assert (y ∈ filter (k =.) l) as Hy by (rewrite Hf; left).
    by apply list_elem_of_filter in Hy as [<- ?].
  - intros Hk. assert (k ∈ filter (k =.) l) as Hin by by apply list_elem_of_filter.
    destruct (filter (k =.) l); [by apply elem_of_nil in Hin|simpl; lia].
Qed.

Lemma update_fmap (f : K → nat) (L : list K) x :
  NoDup L →
  _update_term_counting_dict ((λ k, (k, f k)) <$> L) x =
  if decide (x ∈ L)
  then (λ k, (k, if decide (k = x) then S (f k) else f k)) <$> L
  else ((λ k, (k, f k)) <$> L) ++ [(x, 1)].
Proof.
  induction 1 as [|k L Hk HL IH]; [done|].
  rewrite !fmap_cons. cbn [_update_term_counting_dict].
  destruct (decide (k = x)) as [->|Hne].
  - rewrite decide_True by left. f_equal.
    apply list_fmap_ext. intros _ k' Hk'%list_elem_of_lookup_2.
    rewrite decide_False; [done|]. by intros ->.
  - rewrite IH. destruct (decide (x ∈ L)) as [Hin|Hin].
    + rewrite decide_True by by right. done.
    + rewrite decide_False; [done|].
      intros [?|?]%elem_of_cons; [by subst|done].
Qed.

(** The counter after the scan: every distinct term with its number of
    occurrences, in the order of first encounter. *)
Lemma counter_spec l :
  foldl _update_term_counting_dict [] l =
  (λ k, (k, occurrences k l)) <$> first_seen l.
Proof.
  induction l as [|x l IH] using rev_ind; [done|].
  rewrite foldl_snoc, IH, update_fmap by apply NoDup_first_seen.
  rewrite first_seen_snoc. case_decide as Hx.
  - apply list_fmap_ext. intros _ k _. by rewrite occurrences_snoc.
  - rewrite fmap_app. simpl. f_equal.
    + apply list_fmap_ext. intros _ k Hk%list_elem_of_lookup_2.
      rewrite occurrences_snoc, decide_False; [done|]. by intros ->.
    + rewrite occurrences_snoc, decide_True by done.
      do 3 f_equal. rewrite elem_of_first_seen in Hx.
      destruct (occurrences x l) eqn:Ho; [done|].
      exfalso. apply Hx, occurrences_pos. lia.
Qed.

Lemma by_count_total (a b : K * nat) :
  by_count a b = false → by_count b a = true.
Proof. unfold by_count. rewrite Nat.leb_gt, Nat.leb_le. lia. Qed.

Lemma by_count_trans (a b c : K * nat) :
  by_count a b = true → by_count b c = true → by_count a c = true.
Proof. unfold by_count. rewrite !Nat.leb_le. lia. Qed.

(** What [most_common] makes of the counter of a scan [l]. *)
Lemma most_common_Permutation l :
  most_common (foldl _update_term_counting_dict [] l) ≡ₚ first_seen l.
Proof.
  unfold most_common. rewrite sorted_Permutation, counter_spec.
  rewrite <-list_fmap_compose. by rewrite list_fmap_id.
Qed.

Lemma most_common_lookup l i a :
  most_common (foldl _update_term_counting_dict [] l) !! i = Some a →
  Py.sorted by_count (foldl _update_term_counting_dict [] l) !! i
  = Some (a, occurrences a l).
Proof.
  unfold most_common. rewrite list_lookup_fmap.
  destruct (Py.sorted _ _ !! i) as [[k n]|] eqn:Hi; [|done].
  intros [= <-]. do 2 f_equal.
  apply list_elem_of_lookup_2 in Hi.
  rewrite sorted_Permutation, counter_spec in Hi.
  apply list_elem_of_fmap in Hi as (k' & [= -> ->] & _). done.
Qed.

Lemma most_common_order l i j a b :
  let out := most_common (foldl _update_term_counting_dict [] l) in
  i < j → out !! i = Some a → out !! j = Some b →
  occurrences b l ≤ occurrences a l ∧
  (occurrences a l = occurrences b l →
   ∃ p q, l = p ++ a :: q ∧ (a ∉ p) ∧ (b ∉ p)).
Proof.
  intros out Hij Ha%most_common_lookup Hb%most_common_lookup.
  set (c := foldl _update_term_counting_dict [] l) in *.
  split.
  - pose proof (sorted_StronglySorted by_count c by_count_total by_count_trans) as Hs.
    pose proof (StronglySorted_lookup _ _ _ _ _ _ Hs Hij Ha Hb) as Hab.
    by apply Nat.leb_le in Hab.
  - intros Heq. apply first_seen_order.
    pose proof (lookup_sublist _ _ _ _ _ Hij Ha Hb) as Hsub.
    set (P := λ x : K * nat, x.2 = occurrences a l).
    apply (sublist_filter_pair P) in Hsub; [|done|by unfold P].
    rewrite (sorted_stable by_count P) in Hsub; last first.
    { intros x y Hx Hy. unfold by_count, P in *. apply Nat.leb_le. lia. }
    pose proof (sublist_filter P c) as Hf.
    assert ([(a, occurrences a l); (b, occurrences b l)] `sublist_of` c) as Hc
      by (by etrans).
    apply (fmap_sublist fst) in Hc. simpl in Hc.
    subst c. rewrite counter_spec, <-list_fmap_compose, list_fmap_id in Hc. done.
Qed.
End counting.

(** ** The loops of the aggregators and the scan *)

Section scans.
Import MarcupRecord IslandoraRecord.

Lemma foldl_bind {A B C} (f : A → C → A) (g : B → list C) (l : list B) a :
  foldl f a (l ≫= g) = foldl (λ a x, foldl f a (g x)) a l.
Proof.
  revert a. induction l as [|x l IH]; intros a; [done|].
  by rewrite bind_cons, foldl_app, IH.
Qed.

Lemma foldl_pointwise {A B} (f g : A → B → A) (l : list B) a :
  (∀ a x, f a x = g a x) → foldl f a l = foldl g a l.
Proof.
  intros Hfg. revert a. induction l as [|x l IH]; intros a; [done|].
  simpl. by rewrite Hfg, IH.
Qed.

Lemma get_terms_row_scan sep column terms_counter (r : row) :
  _get_terms_row sep column terms_counter r
  = foldl _update_term_counting_dict terms_counter
      (cell_terms sep (default "" (r !! column))).
Proof.
  unfold _get_terms_row, cell_terms.
  case_decide; [|done]. by destruct (Py.contains _ _).
Qed.

(** [_get_terms] counts the scanned terms and sorts the counter. *)
Lemma get_terms_scan metadata args sep :
  _get_terms metadata args sep
  = most_common (foldl _update_term_counting_dict []
                   (scanned_terms metadata args sep)).
Proof.
  unfold _get_terms, scanned_terms. f_equal.
  rewrite foldl_bind. apply foldl_pointwise. intros tc column.
  rewrite foldl_bind. apply foldl_pointwise. intros tc' r.
  apply get_terms_row_scan.
Qed.

Lemma get_terms_and_uris_row_scan column terms_counter (r : row) :
  _get_terms_and_uris_row column terms_counter r
  = foldl _update_term_counting_dict terms_counter (row_terms_and_uris column r).
Proof.
  unfold _get_terms_and_uris_row, row_terms_and_uris.
  case_decide; [|done]. by destruct (Py.contains _ _).
Qed.

Lemma get_terms_and_uris_scan metadata args :
  _get_terms_and_uris metadata args
  = most_common (foldl _update_term_counting_dict []
                   (scanned_terms_and_uris metadata args)).
Proof.
  unfold _get_terms_and_uris, scanned_terms_and_uris. f_equal.
  rewrite foldl_bind. apply foldl_pointwise. intros tc column.
  rewrite foldl_bind. apply foldl_pointwise. intros tc' r.
  apply get_terms_and_uris_row_scan.
Qed.
End scans.

(** ** Strings *)

Section string_facts.
Implicit Types (s t needle : string) (c : ascii).

Lemma app_String c s t : String c s +:+ t = String c (s +:+ t).
Proof. done. Qed.

Lemma app_empty_l s : "" +:+ s = s.
Proof. done. Qed.

Lemma app_empty_r s : s +:+ "" = s.
Proof. induction s as [|c s IH]; [done|]. by rewrite app_String, IH. Qed.

Lemma app_assoc_string s t u : (s +:+ t) +:+ u = s +:+ t +:+ u.
Proof. induction s as [|c s IH]; [done|]. by rewrite !app_String, IH. Qed.

Lemma prefix_spec needle s :
  String.prefix needle s = true ↔ ∃ rest, s = needle +:+ rest.
Proof.
  revert s. induction needle as [|c needle IH]; intros s.
  - destruct s; simpl; split; eauto.
  - destruct s as [|c' s]; simpl.
    + split; [done|]. by intros [rest ?].
    + destruct (ascii_dec c c') as [->|Hne].
      * rewrite IH. split; intros [rest Hr]; exists rest.
        -- by rewrite app_String, Hr.
        -- rewrite app_String in Hr. by injection Hr.
      * split; [done|]. intros [rest Hr]. rewrite app_String in Hr.
        injection Hr as ??. by subst.
Qed.

Lemma drop_chars_app needle rest :
  Py.drop_chars (String.length needle) (needle +:+ rest) = rest.
Proof.
  induction needle as [|c needle IH]; simpl; [by destruct rest|done].
Qed.

Lemma find_eq needle s :
  Py.find needle s =
  if String.prefix needle s then
    Some ("", Py.drop_chars (String.length needle) s)
  else
    match s with
    | "" => None
    | String c r =>
        match Py.find needle r with
        | Some (before, after) => Some (String c before, after)
        | None => None
        end
    end.
Proof. by destruct s. Qed.

Lemma find_Some needle s before after :
  Py.find needle s = Some (before, after) → s = before +:+ needle +:+ after.
Proof.
  revert before. induction s as [|c s IH]; intros before; rewrite find_eq.
  - destruct (String.prefix needle "") eqn:Hp; [|done].
    apply prefix_spec in Hp as [rest Hr]. intros [= <- <-].
    by destruct needle.
  - destruct (String.prefix needle (String c s)) eqn:Hp.
    + apply prefix_spec in Hp as [rest Hr]. intros [= <- <-].
      rewrite Hr. by rewrite drop_chars_app.
    + destruct (Py.find needle s) as [[b a]|] eqn:Hf; [|done].
      intros [= <- <-]. by rewrite app_String, <-(IH b).
Qed.

Lemma find_None needle s pre post :
  Py.find needle s = None → s ≠ pre +:+ needle +:+ post.
Proof.
  revert pre. induction s as [|c s IH]; intros pre; rewrite find_eq.
  - destruct (String.prefix needle "") eqn:Hp; [done|]. intros _ Hs.
    destruct pre; [|done]. rewrite app_empty_l in Hs.
    assert (String.prefix needle "" = true) as Hp'; [|congruence].
    apply prefix_spec. by exists post.
  - destruct (String.prefix needle (String c s)) eqn:Hp; [done|].
    destruct (Py.find needle s) as [[b a]|] eqn:Hf; [done|]. intros _ Hs.
    destruct pre as [|c' pre].
    + assert (String.prefix needle (String c s) = true) as Hp'; [|congruence].
      apply prefix_spec. by exists post.
    + rewrite app_String in Hs. injection Hs as _ Hs. by eapply IH.
Qed.

(** [needle in s] holds exactly when [needle] occurs inside [s]. *)
Lemma contains_spec needle s :
  Py.contains needle s = true ↔ ∃ pre post, s = pre +:+ needle +:+ post.
Proof.
  unfold Py.contains. destruct (Py.find needle s) as [[b a]|] eqn:Hf.
  - split; [|done]. intros _. exists b, a. by apply find_Some.
  - split; [done|]. intros (pre & post & Hs). by eapply find_None in Hs.
Qed.
End string_facts.

Section strip_facts.
Implicit Types (s t : string) (c : ascii).

Lemma lstrip_blank s : Py.lstrip s = "" ↔ blank s.
Proof.
  unfold blank. induction s as [|c s IH]; simpl.
  - split; [constructor|done].
  - destruct (Py.isspace c) eqn:Hc.
    + rewrite IH. split; [by constructor|by inv 1].
    + split; [done|]. inv 1. congruence.
Qed.

Lemma lstrip_head s c r : Py.lstrip s = String c r → Py.isspace c = false.
Proof.
  induction s as [|c' s IH]; simpl; [done|].
  destruct (Py.isspace c') eqn:Hc; [done|]. by intros [= <- <-].
Qed.

Lemma chars_rev_app s acc :
  list_ascii_of_string (String.rev_app s acc) =
  reverse (list_ascii_of_string s) ++ list_ascii_of_string acc.
Proof.
  revert acc. induction s as [|c s IH]; intros acc; simpl; [done|].
  rewrite IH, reverse_cons, <-app_assoc. done.
Qed.

Lemma chars_rev s :
  list_ascii_of_string (String.rev s) = reverse (list_ascii_of_string s).
Proof. unfold String.rev. by rewrite chars_rev_app, app_nil_r. Qed.

Lemma chars_empty s : list_ascii_of_string s = [] → s = "".
Proof. by destruct s. Qed.

Lemma blank_rev s : blank (String.rev s) ↔ blank s.
Proof. unfold blank. by rewrite chars_rev, Forall_reverse. Qed.

(** A term is empty after trimming exactly when it is blank. *)
Lemma strip_empty t : Py.strip t = "" ↔ blank t.
Proof.
  unfold Py.strip. split.
  - intros Hs.
    assert (Py.lstrip (String.rev (Py.lstrip t)) = "") as Hl.
    { apply chars_empty. apply (f_equal list_ascii_of_string) in Hs.
      rewrite chars_rev in Hs. simpl in Hs.
      apply (f_equal reverse) in Hs. by rewrite reverse_involutive in Hs. }
    apply lstrip_blank in Hl. apply (proj1 (blank_rev _)) in Hl.
    destruct (Py.lstrip t) as [|c r] eqn:Ht; [by apply lstrip_blank|].
    apply lstrip_head in Ht. inv Hl. congruence.
  - intros Hb%lstrip_blank. by rewrite Hb.
Qed.
End strip_facts.

(** ** Name and subject entries *)

Section vocabularies.
Import MarcupRecord.

Lemma contains_false needle s :
  Py.contains needle s = false ↔ ¬ occurs_in needle s.
Proof.
  unfold occurs_in. rewrite <-contains_spec.
  destruct (Py.contains needle s); split; done.
Qed.

Lemma add_term_uri_classifies tag first_indicator fallback fields t u :
  ∃ fs, add_term_uri tag first_indicator fallback fields (t, u) = fields ++ fs ∧
        classification_rule tag first_indicator fallback t u fs.
Proof.
  unfold add_term_uri, classification_rule.
  destruct (decide (Py.strip t ≠ "")) as [Hs|Hs].
  - assert (¬ blank t) as Hb by by rewrite <-strip_empty.
    destruct (Py.contains "id.loc.gov" u) eqn:Hloc.
    { apply contains_spec in Hloc.
      eexists; split; [reflexivity|]. split_and!; intros; done. }
    apply contains_false in Hloc.
    destruct (Py.contains "id.worldcat.org/fast" u) eqn:Hfast.
    { apply contains_spec in Hfast.
      eexists; split; [reflexivity|]. split_and!; intros; done. }
    apply contains_false in Hfast.
    destruct (decide (u = "")) as [Hu|Hu];
      (eexists; split; [reflexivity|]); split_and!; intros; done.
  - assert (blank t) as Hb.
    { apply strip_empty. by destruct (decide (Py.strip t = "")). }
    exists []. split; [by rewrite app_nil_r|].
    split_and!; intros; done.
Qed.

(** C2. Every (term, uri) pair is classified in the order name authority,
    FAST, empty uri, anything else: second indicator 0 without a source
    subfield, 7 with source fast, 7 with source local, the fallback
    indicator without a source subfield; a blank term gives no field.
    The fields are appended in the order of the pairs. *)
Theorem add_terms_multiple_vocabularies_classifies
    (tag : string) (terms_uris : list (string * string))
    (first_indicator fallback : value) (fields : list Field) :
  ∃ emitted : list (list Field),
    _add_terms_multiple_vocabularies tag terms_uris first_indicator fallback fields
    = fields ++ concat emitted ∧
    Forall2 (λ tu fs,
               classification_rule tag first_indicator fallback tu.1 tu.2 fs)
            terms_uris emitted.
Proof.
  unfold _add_terms_multiple_vocabularies.
  revert fields. induction terms_uris as [|[t u] l IH]; intros fields.
  - exists []. simpl. by rewrite app_nil_r.
  - cbn [foldl].
    destruct (add_term_uri_classifies tag first_indicator fallback fields t u)
      as (fs & -> & Hfs).
    destruct (IH (fields ++ fs)) as (emitted & -> & Hall).
    exists (fs :: emitted). split; [by rewrite <-app_assoc|by constructor].
Qed.
End vocabularies.

(** ** The term aggregator *)

Section aggregator.
Import MarcupRecord.

Lemma take_to_lookup {A} (m : Z) (l : list A) i a :
  Py.take_to m l !! i = Some a → l !! i = Some a.
Proof.
  unfold Py.take_to. destruct (0 <=? m)%Z; by intros [? _]%lookup_take_Some.
Qed.

(** The aggregator returns every scanned term once. *)
Lemma get_terms_elements metadata args sep :
  let terms := _get_terms metadata args sep in
  NoDup terms ∧ ∀ a, a ∈ terms ↔ a ∈ scanned_terms metadata args sep.
Proof.
  rewrite get_terms_scan. split.
  - rewrite most_common_Permutation. apply NoDup_first_seen.
  - intros a. by rewrite most_common_Permutation, elem_of_first_seen.
Qed.

(** C3. In the list the aggregator returns, cut to its first [N] terms or
    not, a term never stands in front of one that was counted more often,
    and of two terms counted equally often the one in front is the one the
    scan of the columns and rows met first. *)
Theorem get_terms_frequency_order (metadata : list row) (args : list string)
    (sep : ascii) (N : Z) (i j : nat) (a b : string) :
  let scan := scanned_terms metadata args sep in
  let top := Py.take_to N (_get_terms metadata args sep) in
  i < j → top !! i = Some a → top !! j = Some b →
  occurrences b scan ≤ occurrences a scan ∧
  (occurrences a scan = occurrences b scan →
   ∃ p q, scan = p ++ a :: q ∧ (a ∉ p) ∧ (b ∉ p)).
Proof.
  intros scan top Hij Ha%take_to_lookup Hb%take_to_lookup.
  rewrite get_terms_scan in Ha, Hb.
  by apply (most_common_order scan i j).
Qed.

Lemma get_terms_frequency_order_witness :
  let metadata : list row :=
    [{["topic" := "x;y;x"]}; {["topic" := "z;y"]}] in
  let scan := scanned_terms metadata ["topic"] ";" in
  occurrences "y" scan ≤ occurrences "x" scan ∧
  (occurrences "x" scan = occurrences "y" scan →
   ∃ p q, scan = p ++ "x" :: q ∧ ("x" ∉ p) ∧ ("y" ∉ p)).
Proof.
  intros metadata scan.
  apply (get_terms_frequency_order metadata ["topic"] ";" 2 0 1 "x" "y");
    [lia|vm_compute; reflexivity|vm_compute; reflexivity].
Defined.
End aggregator.

(** ** The paired aggregator *)

Section paired.
Import MarcupRecord IslandoraRecord.

Lemma zip_longest_nil_l {A} (fill : A) k :
  Py.zip_longest fill [] k = (λ y, (fill, y)) <$> k.
Proof. by destruct k. Qed.

Lemma zip_longest_nil_r {A} (fill : A) l :
  Py.zip_longest fill l [] = (λ x, (x, fill)) <$> l.
Proof. by destruct l. Qed.

Lemma zip_longest_length {A} (fill : A) l k :
  length (Py.zip_longest fill l k) = length l `max` length k.
Proof.
  revert k. induction l as [|x l IH]; intros k.
  - by rewrite zip_longest_nil_l, length_fmap.
  - destruct k as [|y k]; [by rewrite zip_longest_nil_r, length_fmap|].
    simpl. by rewrite IH.
Qed.

Lemma zip_longest_lookup {A} (fill : A) l k i :
  i < length l `max` length k →
  Py.zip_longest fill l k !! i
  = Some (default fill (l !! i), default fill (k !! i)).
Proof.
  revert k i. induction l as [|x l IH]; intros k i Hi.
  - rewrite zip_longest_nil_l, list_lookup_fmap. simpl in Hi.
    destruct (lookup_lt_is_Some_2 k i) as [z Hz]; [lia|]. by rewrite Hz.
  - destruct k as [|y k].
    + rewrite zip_longest_nil_r, list_lookup_fmap. simpl in Hi.
      destruct (lookup_lt_is_Some_2 (x :: l) i) as [z Hz]; [simpl; lia|].
      by rewrite Hz.
    + destruct i as [|i]; [done|]. simpl. apply IH. simpl in Hi. lia.
Qed.

(** C4, as the code has it, for a row that holds the term cell [t] and the
    uri cell [u] of the column.  The loop body counts a list of pairs, one
    call of the counter per pair.  A term cell without a semicolon gives one
    pair whose uri is the whole uri cell, unsplit.  A term cell with a
    semicolon is split together with the uri cell, and the two lists of
    pieces are paired position by position up to the longer one, an absent
    piece on either side being the empty string.  An empty term cell gives
    nothing. *)
Theorem row_terms_and_uris_pairing (column : string) (r : row) (t u : string)
    (terms_counter : list (string * string * nat)) :
  r !! column = Some t →
  r !! (column +:+ "_valueURI") = Some u →
  let ts := Py.split ";" t in
  let uris := Py.split ";" u in
  ∃ pairs,
    _get_terms_and_uris_row column terms_counter r
    = foldl _update_term_counting_dict terms_counter pairs ∧
    (t = "" → pairs = []) ∧
    (t ≠ "" → ¬ occurs_in ";" t → pairs = [(t, u)]) ∧
    (occurs_in ";" t →
     length pairs = length ts `max` length uris ∧
     ∀ i, i < length ts `max` length uris →
          pairs !! i = Some (default "" (ts !! i), default "" (uris !! i))).
Proof.
  intros Hterm Huri ts uris. exists (row_terms_and_uris column r).
  split; [apply get_terms_and_uris_row_scan|].
  unfold row_terms_and_uris. rewrite Hterm, Huri.
  change (default " " (Some t)) with t. change (default " " (Some u)) with u.
  fold ts uris. split_and!.
  - intros ->. done.
  - intros Ht Hno%contains_false.
    rewrite decide_True by done. by rewrite Hno.
  - intros Hocc. pose proof Hocc as Hc%contains_spec.
    assert (t ≠ "") as Ht.
    { intros Heq. destruct Hocc as (pre & post & Hp). rewrite Heq in Hp.
      by destruct pre. }
    rewrite decide_True by done. rewrite Hc.
    split; [apply zip_longest_length|apply zip_longest_lookup].
Qed.

Lemma row_terms_and_uris_pairing_witness :
  let r : row :=
    {[ "personal_name_subject" := "Smith, Jane;Doe, John;Roe, Ann";
       "personal_name_subject_valueURI" := "http://id.loc.gov/n1;" ]} in
  let ts := ["Smith, Jane"; "Doe, John"; "Roe, Ann"] in
  let uris := ["http://id.loc.gov/n1"; ""] in
  ∃ pairs,
    _get_terms_and_uris_row "personal_name_subject" [] r
    = foldl _update_term_counting_dict [] pairs ∧
    ("Smith, Jane;Doe, John;Roe, Ann" = "" → pairs = []) ∧
    ("Smith, Jane;Doe, John;Roe, Ann" ≠ "" →
     ¬ occurs_in ";" "Smith, Jane;Doe, John;Roe, Ann" →
     pairs = [("Smith, Jane;Doe, John;Roe, Ann", "http://id.loc.gov/n1;")]) ∧
    (occurs_in ";" "Smith, Jane;Doe, John;Roe, Ann" →
     length pairs = length ts `max` length uris ∧
     ∀ i, i < length ts `max` length uris →
          pairs !! i = Some (default "" (ts !! i), default "" (uris !! i))).
Proof.
  intros r ts uris.
  apply (row_terms_and_uris_pairing "personal_name_subject" r
           "Smith, Jane;Doe, John;Roe, Ann" "http://id.loc.gov/n1;" []);
    reflexivity.
Defined.

(** C4 fails as stated: a term cell of two pieces beside a uri cell of three
    pieces gives three pairs, the last made of the third uri alone. *)
Lemma row_terms_and_uris_extra_uri :
  let r : row :=
    {[ "personal_name_subject" := "A;B";
       "personal_name_subject_valueURI" := "u1;u2;u3" ]} in
  length (Py.split ";" "A;B") = 2 ∧
  _get_terms_and_uris_row "personal_name_subject" [] r
  = [("A", "u1", 1); ("B", "u2", 1); ("", "u3", 1)] ∧
  _get_terms_and_uris [r] ["personal_name_subject"]
  = [("A", "u1"); ("B", "u2"); ("", "u3")] ∧
  length (_get_terms_and_uris [r] ["personal_name_subject"])
  ≠ length (Py.split ";" "A;B").
Proof. vm_compute. split_and!; done. Qed.

(** C8 at rows without the requested column.  The plain aggregator counts
    nothing, as for an empty cell; the paired aggregator counts the pair of
    two single spaces, where an empty cell gives nothing.  A term whose uri
    column is missing is paired with a single space, not with the empty uri
    of an empty cell, and so gets the fallback indicator instead of the
    source local. *)
Theorem missing_column_in_paired_aggregator :
  let absent := two_language_rows in
  let empty : list row :=
    (λ r : row, <["personal_name_subject" := ""]> r) <$> two_language_rows in
  let no_uri_column : list row := [{[ "personal_name_subject" := "Smith, Jane" ]}] in
  let empty_uri : list row :=
    [{[ "personal_name_subject" := "Smith, Jane";
        "personal_name_subject_valueURI" := "" ]}] in
  _get_terms absent ["personal_name_subject"] ";" = [] ∧
  _get_terms empty ["personal_name_subject"] ";" = [] ∧
  _get_terms_and_uris empty ["personal_name_subject"] = [] ∧
  _get_terms_and_uris absent ["personal_name_subject"] = [(" ", " ")] ∧
  _get_terms_and_uris empty_uri ["personal_name_subject"] = [("Smith, Jane", "")] ∧
  _get_terms_and_uris no_uri_column ["personal_name_subject"]
  = [("Smith, Jane", " ")] ∧
  add_personal_name_subjects (Self empty_uri false 5 ∅) []
  = [DataField "600" (Str "1", Str "7")
       [(Str "a", Str "Smith, Jane"); (Str "2", Str "local")]] ∧
  add_personal_name_subjects (Self no_uri_column false 5 ∅) []
  = [DataField "600" (Str "1", Int 4) [(Str "a", Str "Smith, Jane")]].
Proof. vm_compute. split_and!; done. Qed.
End paired.

(** ** The date range *)

Section dates.
Import IslandoraRecord.

Lemma leb_total_bool (a b : string) :
  String.leb a b = false → String.leb b a = true.
Proof. destruct (String.leb_total a b) as [H|H]; congruence. Qed.

Lemma leb_trans_bool (a b c : string) :
  String.leb a b = true → String.leb b c = true → String.leb a c = true.
Proof.
  intros Hab Hbc. apply Is_true_true.
  change (String.le a c). transitivity b; by apply Is_true_true.
Qed.

Lemma sorted_years_StronglySorted (years : list string) :
  StronglySorted String.le (Py.sorted String.leb years).
Proof.
  pose proof (sorted_StronglySorted String.leb years
                leb_total_bool leb_trans_bool) as Hs.
  induction Hs as [|y l Hl IH Hy]; constructor; [done|].
  eapply Forall_impl; [exact Hy|]. intros z Hz. by apply Is_true_true.
Qed.

Lemma sorted_extremes (ys : list string) :
  StronglySorted String.le ys → 1 < length ys →
  ∃ lo hi, ys !! 0 = Some lo ∧ last ys = Some hi ∧
           ∀ y, y ∈ ys → String.le lo y ∧ String.le y hi.
Proof.
  intros Hs Hlen.
  destruct ys as [|lo rest]; [simpl in Hlen; lia|].
  destruct (last (lo :: rest)) as [hi|] eqn:Hlast;
    [|by apply last_None in Hlast].
  exists lo, hi. split_and!; [done..|]. intros y Hy. split.
  - apply StronglySorted_cons in Hs as [Hlo _].
    apply elem_of_cons in Hy as [->|Hy]; [done|].
    rewrite Forall_forall in Hlo. by apply Hlo.
  - apply last_Some in Hlast as [init Hinit]. rewrite Hinit in Hs, Hy.
    apply elem_of_app in Hy as [Hy|Hy].
    + eapply StronglySorted_app_1_elem_of; [done..|]. left.
    + by apply list_elem_of_singleton in Hy as ->.
Qed.

Lemma collect_years_cells (rows : list row) (cells : list string) :
  Forall2 (λ md d, md !! "date_original" = Some d) rows cells →
  collect_years rows = Ok (Py.slice_to 4 <$> filter (λ d, d ≠ "") cells).
Proof.
  induction 1 as [|md d rows cells Hd _ IH]; [done|].
  cbn [collect_years]. unfold getitem. rewrite Hd. cbn. rewrite IH. cbn.
  by destruct (decide (d ≠ "")).
Qed.

(** C7, as the code has it.  The years are the first four characters of
    the non-empty date cells, sorted as strings.  The range is empty when
    there is no such cell, the year itself when there is exactly one cell,
    and earliest-latest with a final full stop when there are two cells or
    more, whether or not their years differ. *)
Theorem date_range_of_cells (s : self) (cells : list string) :
  Forall2 (λ md d, md !! "date_original" = Some d) (metadata s) cells →
  let years := Py.slice_to 4 <$> filter (λ d, d ≠ "") cells in
  ∃ sorted_years,
    get_years s = Ok sorted_years ∧
    sorted_years ≡ₚ years ∧
    StronglySorted String.le sorted_years ∧
    (years = [] → get_date_range sorted_years = "") ∧
    (∀ y, years = [y] → get_date_range sorted_years = y) ∧
    (1 < length years →
     ∃ earliest latest,
       earliest ∈ years ∧ latest ∈ years ∧
       (∀ y, y ∈ years → String.le earliest y ∧ String.le y latest) ∧
       get_date_range sorted_years = earliest +:+ "-" +:+ latest +:+ ".").
Proof.
  intros Hcells years. exists (Py.sorted String.leb years).
  pose proof (sorted_Permutation String.leb years) as Hperm.
  pose proof (sorted_years_StronglySorted years) as Hsorted.
  split_and!; [|done..| | |].
  - unfold get_years. by rewrite (collect_years_cells _ _ Hcells).
  - intros Hy. by rewrite Hy.
  - intros y Hy. by rewrite Hy.
  - intros Hlen.
    assert (1 < length (Py.sorted String.leb years)) as Hlen'
      by by rewrite Hperm.
    destruct (sorted_extremes _ Hsorted Hlen') as (lo & hi & Hlo & Hhi & Hall).
    exists lo, hi. split_and!.
    + rewrite <-Hperm. by eapply list_elem_of_lookup_2.
    + rewrite <-Hperm. by apply last_Some_elem_of.
    + intros y Hy. apply Hall. by rewrite Hperm.
    + unfold get_date_range. rewrite decide_True by done.
      by rewrite Hlo, Hhi.
Qed.

Lemma date_range_of_cells_witness :
  let s := Self [{["date_original" := "1950-03-01"]};
                 {["date_original" := "1962"]};
                 {["date_original" := ""]};
                 {["date_original" := "1950-07-04"]}] false 5 ∅ in
  ∃ sorted_years,
    get_years s = Ok sorted_years ∧
    sorted_years ≡ₚ ["1950"; "1962"; "1950"] ∧
    StronglySorted String.le sorted_years ∧
    (["1950"; "1962"; "1950"] = [] → get_date_range sorted_years = "") ∧
    (∀ y, ["1950"; "1962"; "1950"] = [y] → get_date_range sorted_years = y) ∧
    (1 < 3 →
     ∃ earliest latest,
       earliest ∈ ["1950"; "1962"; "1950"] ∧ latest ∈ ["1950"; "1962"; "1950"] ∧
       (∀ y, y ∈ ["1950"; "1962"; "1950"] →
             String.le earliest y ∧ String.le y latest) ∧
       get_date_range sorted_years = earliest +:+ "-" +:+ latest +:+ ".").
Proof.
  intros s.
  apply (date_range_of_cells s ["1950-03-01"; "1962"; ""; "1950-07-04"]).
  repeat constructor.
Defined.

(** C7 fails as stated: two objects of the same year give one distinct
    year and yet a range, not that single year. *)
Lemma date_range_same_year_twice :
  let s := Self [{["date_original" := "1950-03-01"]};
                 {["date_original" := "1950-07-04"]}] false 5 ∅ in
  get_years s = Ok ["1950"; "1950"] ∧
  get_date_range ["1950"; "1950"] = "1950-1950." ∧
  get_date_range ["1950"; "1950"] ≠ "1950".
Proof. vm_compute. split_and!; done. Qed.

(** The boundary cases of the specification. *)
Lemma date_range_boundaries :
  get_date_range (Py.sorted String.leb []) = "" ∧
  get_date_range (Py.sorted String.leb ["1950"]) = "1950" ∧
  get_date_range (Py.sorted String.leb ["1950"; "1962"; "1950"]) = "1950-1962.".
Proof. vm_compute. done. Qed.
End dates.

(** ** The record builder *)

Section builder.
Import MarcupRecord IslandoraRecord.

Lemma bind_Ok {A B} (m : result A) (f : A → result B) b :
  m ≫= f = Ok b → ∃ a, m = Ok a ∧ f a = Ok b.
Proof. destruct m as [a|e]; [|done]. intros Hf. by exists a. Qed.

Lemma convert_repeat_subfields (terms : list value) (code : value) :
  convert_legacy_subfields (_repeat_subfields terms code)
  = (λ term, (code, term)) <$> terms.
Proof. induction terms as [|t terms IH]; [done|]. simpl. f_equal. apply IH. Qed.

(** Every method that adds fields appends them to the ones already there. *)
Lemma add_prefix fields tag indicators subfields :
  fields `prefix_of` add fields tag indicators subfields.
Proof. by eexists. Qed.

Lemma foldl_prefix {A B} (f : list A → B → list A) (l : list B) fields :
  (∀ fields x, fields `prefix_of` f fields x) →
  fields `prefix_of` foldl f fields l.
Proof.
  intros Hf. revert fields. induction l as [|x l IH]; intros fields; [done|].
  simpl. etrans; [apply Hf|apply IH].
Qed.

Lemma add_terms_prefix tag indicators terms extra fields :
  fields `prefix_of` _add_terms tag indicators terms extra fields.
Proof.
  apply foldl_prefix. intros fs term.
  destruct (decide (term ≠ "")); [apply add_prefix|done].
Qed.

Lemma add_terms_multiple_vocabularies_prefix tag terms_uris fi fb fields :
  fields `prefix_of` _add_terms_multiple_vocabularies tag terms_uris fi fb fields.
Proof.
  apply foldl_prefix. intros fs [t u].
  destruct (add_term_uri_classifies tag fi fb fs t u) as (sfx & -> & _).
  by eexists.
Qed.

Lemma add_geographic_area_codes_prefix s terms fields :
  fields `prefix_of` add_geographic_area_codes s terms fields.
Proof.
  unfold add_geographic_area_codes.
  destruct (foldl _ _ _) as [codes in_iowa].
  case_decide; [apply add_prefix|done].
Qed.

Lemma add_original_versions_prefix cs ns fields :
  fields `prefix_of` add_original_versions cs ns fields.
Proof. apply foldl_prefix. intros fs c. apply add_prefix. Qed.

Lemma add_finding_aid_links_prefix s fields :
  fields `prefix_of` add_finding_aid_links s fields.
Proof. apply foldl_prefix. intros fs [c a]. apply add_prefix. Qed.

Lemma add_preferred_citation_prefix s dc fields :
  fields `prefix_of` add_preferred_citation s dc fields.
Proof. apply add_prefix. Qed.

Lemma add_personal_name_subjects_prefix s fields :
  fields `prefix_of` add_personal_name_subjects s fields.
Proof. apply add_terms_multiple_vocabularies_prefix. Qed.

Lemma add_corporate_name_subjects_prefix s fields :
  fields `prefix_of` add_corporate_name_subjects s fields.
Proof. apply add_terms_multiple_vocabularies_prefix. Qed.

Lemma add_topic_subjects_prefix s fields :
  fields `prefix_of` add_topic_subjects s fields.
Proof. apply add_terms_prefix. Qed.

Lemma add_geographic_subjects_prefix s fields :
  fields `prefix_of` add_geographic_subjects s fields.
Proof. apply add_terms_prefix. Qed.

Lemma add_genre_forms_prefix s fields :
  fields `prefix_of` add_genre_forms s fields.
Proof. apply add_terms_prefix. Qed.

Lemma add_personal_creators_contributors_prefix s fields :
  fields `prefix_of` add_personal_creators_contributors s fields.
Proof. apply add_terms_prefix. Qed.

Lemma add_corperate_creators_contributors_prefix s fields :
  fields `prefix_of` add_corperate_creators_contributors s fields.
Proof. apply add_terms_prefix. Qed.

Ltac prefix_step :=
  first
    [ reflexivity
    | etrans; [|apply add_prefix]
    | etrans; [|apply add_finding_aid_links_prefix]
    | etrans; [|apply add_corperate_creators_contributors_prefix]
    | etrans; [|apply add_personal_creators_contributors_prefix]
    | etrans; [|apply add_genre_forms_prefix]
    | etrans; [|apply add_geographic_subjects_prefix]
    | etrans; [|apply add_topic_subjects_prefix]
    | etrans; [|apply add_corporate_name_subjects_prefix]
    | etrans; [|apply add_personal_name_subjects_prefix]
    | etrans; [|apply add_original_versions_prefix]
    | etrans; [|apply add_preferred_citation_prefix]
    | etrans; [|apply add_geographic_area_codes_prefix] ].

(** A record that is built starts with what [generate_008_field] left,
    followed by field 008. *)
Lemma init_Ok_fields table today metadata max fields :
  __init__ table today metadata max = Ok fields →
  ∃ data first,
    generate_008_field (Self metadata false max table) today [] = Ok (data, first) ∧
    first ++ [ControlField "008" data] `prefix_of` fields.
Proof.
  unfold __init__. intros H.
  apply bind_Ok in H as (disclaimer & Hdisclaimer & H).
  apply bind_Ok in H as (cm & Hcm & H).
  apply bind_Ok in H as (dc & Hdc & H).
  apply bind_Ok in H as (years & Hyears & H).
  apply bind_Ok in H as ([bio_hist summary] & Hdescr & H).
  apply bind_Ok in H as ([data first] & H008 & H).
  apply bind_Ok in H as (title & Htitle & H).
  apply bind_Ok in H as (count & Hcount & H).
  apply bind_Ok in H as (title856 & Ht856 & H).
  apply bind_Ok in H as (ark856 & Hark856 & H).
  injection H as <-.
  exists data, first. split; [done|].
  destruct (decide (disclaimer ≠ "")); repeat prefix_step.
Qed.

(** C10. When the rows hold more than one language, a record that is built
    starts with field 041, one subfield a per language in the order of the
    aggregated list, and field 008 comes second, its data ending with the
    first language. *)
Theorem language_field_precedes_008 (table : gmap string string)
    (today : string) (metadata : list row) (max : Z) (fields : list Field) :
  let lang := get_languages (Self metadata false max table) in
  __init__ table today metadata max = Ok fields →
  1 < length lang →
  ∃ lang0 rest,
    lang !! 0 = Some lang0 ∧
    fields =
      DataField "041" (Str " ", Str " ") ((λ l, (Str "a", Str l)) <$> lang)
      :: ControlField "008"
           (today +:+ "         iau     o           " +:+ lang0 +:+ " d")
      :: rest.
Proof.
  intros lang Hinit Hlen.
  apply init_Ok_fields in Hinit as (data & first & H008 & [rest ->]).
  unfold generate_008_field in H008. fold lang in H008.
  rewrite decide_True in H008 by done.
  apply bind_Ok in H008 as (lang0 & Hlang0 & H008).
  injection H008 as <- <-.
  exists lang0, rest. split.
  - unfold index in Hlang0. destruct (lang !! 0); by simplify_eq.
  - unfold add_041_field, add, add_field.
    rewrite convert_repeat_subfields, <-list_fmap_compose. done.
Qed.

Lemma language_field_precedes_008_witness :
  ∃ lang0 rest,
    get_languages (Self two_language_rows false 5 ∅) !! 0 = Some lang0 ∧
    two_language_fields =
      DataField "041" (Str " ", Str " ")
        ((λ l, (Str "a", Str l)) <$> get_languages (Self two_language_rows false 5 ∅))
      :: ControlField "008"
           ("261104" +:+ "         iau     o           " +:+ lang0 +:+ " d")
      :: rest.
Proof.
  apply (language_field_precedes_008 ∅ "261104" two_language_rows 5
           two_language_fields).
  - vm_compute. reflexivity.
  - vm_compute. lia.
Defined.
End builder.

(** ** The title-case transform *)

Section title_case_facts.
Import MarcupRecord.
Implicit Types (w rest : string) (ws : list string) (c : ascii).

Ltac ascii_cases c := destruct c as [[|] [|] [|] [|] [|] [|] [|] [|]].

Lemma letter_not_space c : letter c = true → Py.isspace c = false.
Proof. ascii_cases c; by vm_compute. Qed.

Lemma letter_not_apostrophe c : letter c = true → c ≠ "'"%char.
Proof. ascii_cases c; by vm_compute. Qed.

Lemma letter_to_upper c : letter c = true → letter (Py.to_upper c) = true.
Proof. ascii_cases c; by vm_compute. Qed.

Lemma letter_to_lower c : letter c = true → letter (Py.to_lower c) = true.
Proof. ascii_cases c; by vm_compute. Qed.

Lemma to_lower_to_upper c : Py.to_lower (Py.to_upper c) = Py.to_lower c.
Proof. ascii_cases c; by vm_compute. Qed.

Lemma to_lower_idemp c : Py.to_lower (Py.to_lower c) = Py.to_lower c.
Proof. ascii_cases c; by vm_compute. Qed.

Lemma lower_not_upper c : Py.islower c = true → Py.isupper c = false.
Proof. ascii_cases c; by vm_compute. Qed.

Lemma title_char_cased c rest :
  letter c = true →
  Py.title_from true (String c rest)
  = String (Py.to_lower c) (Py.title_from true rest).
Proof.
  unfold letter. intros Hc. cbn [Py.title_from]. unfold Py.to_lower.
  destruct (Py.islower c) eqn:Hl.
  - by rewrite (lower_not_upper c Hl).
  - rewrite orb_false_r in Hc. by rewrite Hc.
Qed.

Lemma title_char_first c rest :
  letter c = true →
  Py.title_from false (String c rest)
  = String (Py.to_upper c) (Py.title_from true rest).
Proof.
  unfold letter. intros Hc. cbn [Py.title_from]. unfold Py.to_upper.
  destruct (Py.islower c) eqn:Hl; [done|].
  rewrite orb_false_r in Hc. by rewrite Hc.
Qed.

Lemma lower_idemp w : Py.lower (Py.lower w) = Py.lower w.
Proof. induction w as [|c w IH]; [done|]. simpl. by rewrite to_lower_idemp, IH. Qed.

Lemma lower_capitalize w : Py.lower (capitalize w) = Py.lower w.
Proof.
  destruct w as [|c w]; [done|]. simpl.
  by rewrite to_lower_to_upper, lower_idemp.
Qed.

Lemma title_from_letters w rest :
  Forall (λ c, letter c = true) (list_ascii_of_string w) →
  Py.title_from true (w +:+ rest) = Py.lower w +:+ Py.title_from true rest.
Proof.
  induction w as [|c w IH]; [done|]. intros Hw. simpl in Hw. inv Hw.
  rewrite app_String, title_char_cased by done.
  cbn [Py.lower]. rewrite app_String. by rewrite IH.
Qed.

Lemma title_from_word w rest :
  word w →
  Py.title_from false (w +:+ rest) = capitalize w +:+ Py.title_from true rest.
Proof.
  intros [Hne Hw]. destruct w as [|c w]; [done|]. simpl in Hw. inv Hw.
  rewrite app_String, title_char_first by done.
  cbn [capitalize]. rewrite app_String. by rewrite title_from_letters.
Qed.

Lemma letters_lower w :
  Forall (λ c, letter c = true) (list_ascii_of_string w) →
  Forall (λ c, letter c = true) (list_ascii_of_string (Py.lower w)).
Proof.
  induction w as [|c w IH]; [done|]. intros Hw. simpl in Hw. inv Hw.
  simpl. constructor; [by apply letter_to_lower|auto].
Qed.

Lemma word_capitalize w : word w → word (capitalize w).
Proof.
  intros [Hne Hw]. destruct w as [|c w]; [done|]. split; [done|].
  simpl in *. inv Hw.
  constructor; [by apply letter_to_upper|by apply letters_lower].
Qed.

Lemma join_cons_cons sep w w' ws :
  Py.join sep (w :: w' :: ws) = w +:+ sep +:+ Py.join sep (w' :: ws).
Proof. done. Qed.

Lemma title_join ws :
  Forall word ws → Py.title (Py.join " " ws) = Py.join " " (capitalize <$> ws).
Proof.
  unfold Py.title. induction 1 as [|w ws Hw Hws IH]; [done|].
  destruct ws as [|w' ws].
  - change (Py.join " " [w]) with w. rewrite <-(app_empty_r w) at 1.
    rewrite title_from_word by done. apply app_empty_r.
  - rewrite join_cons_cons, title_from_word by done.
    rewrite fmap_cons, fmap_cons, join_cons_cons. f_equal.
    rewrite <-fmap_cons, <-IH. done.
Qed.

Lemma split_space_word w :
  Forall (λ c, Py.isspace c = false) (list_ascii_of_string w) →
  Py.split_space w = [w].
Proof.
  induction w as [|c w IH]; [done|]. intros Hw. simpl in Hw.
  apply Forall_cons in Hw as [Hc Hw].
  cbn [Py.split_space]. by rewrite Hc, IH.
Qed.

Lemma split_space_app w rest :
  Forall (λ c, Py.isspace c = false) (list_ascii_of_string w) →
  Py.split_space (w +:+ String " " rest) = w :: Py.split_space rest.
Proof.
  induction w as [|c w IH]; [done|]. intros Hw. simpl in Hw.
  apply Forall_cons in Hw as [Hc Hw].
  rewrite app_String. cbn [Py.split_space]. by rewrite Hc, IH.
Qed.

Lemma word_no_space w :
  word w → Forall (λ c, Py.isspace c = false) (list_ascii_of_string w).
Proof. intros [_ Hw]. eapply Forall_impl; [done|]. apply letter_not_space. Qed.

Lemma split_ws_join ws : Forall word ws → Py.split_ws (Py.join " " ws) = ws.
Proof.
  unfold Py.split_ws. induction 1 as [|w ws Hw Hws IH]; [done|].
  destruct ws as [|w' ws].
  - change (Py.join " " [w]) with w.
    rewrite split_space_word by by apply word_no_space.
    rewrite filter_cons, decide_True by apply Hw. done.
  - rewrite join_cons_cons.
    change (" " +:+ Py.join " " (w' :: ws)) with (String " " (Py.join " " (w' :: ws))).
    rewrite split_space_app by by apply word_no_space.
    rewrite filter_cons, decide_True by apply Hw. by rewrite IH.
Qed.

Lemma split_apostrophe_word w : word w → Py.split "'" w = [w].
Proof.
  intros [_ Hw]. induction w as [|c w IH]; [done|]. simpl in Hw.
  apply Forall_cons in Hw as [Hc Hw]. cbn [Py.split].
  rewrite decide_False by by apply letter_not_apostrophe. by rewrite IH.
Qed.

Lemma title_case_word_plain len i w :
  word w →
  title_case_word len i w =
  if decide (0 < i < len - 1 ∧ w ∈ dont_capitalize) then Py.lower w else w.
Proof.
  intros Hw. unfold title_case_word. rewrite split_apostrophe_word by done.
  destruct (decide (0 < i < len - 1)) as [Hi|Hi].
  - destruct (decide (w ∈ dont_capitalize)) as [Hd|Hd].
    + by rewrite decide_True.
    + rewrite decide_False; [done|]. by intros [_ ?].
  - rewrite decide_False; [done|]. by intros [? _].
Qed.

Lemma split_free_of sep w : free_of sep w → Py.split sep w = [w].
Proof.
  unfold free_of. induction w as [|c w IH]; [done|]. intros Hw. simpl in Hw.
  apply Forall_cons in Hw as [Hc Hw]. cbn [Py.split].
  rewrite decide_False by done. by rewrite IH.
Qed.

Lemma split_app_separator sep w rest :
  free_of sep w → Py.split sep (w +:+ String sep rest) = w :: Py.split sep rest.
Proof.
  unfold free_of. induction w as [|c w IH]; intros Hw.
  - rewrite app_empty_l. cbn [Py.split]. by rewrite decide_True.
  - simpl in Hw. apply Forall_cons in Hw as [Hc Hw].
    rewrite app_String. cbn [Py.split]. rewrite decide_False by done.
    by rewrite IH.
Qed.

















End title_case_facts.

(** ** The cap on the terms of a field, and the variants *)

Section cap_and_variants.
Import MarcupRecord IslandoraRecord.

Lemma length_take_to {A} (m : Z) (l : list A) :
  (0 ≤ m)%Z → length (Py.take_to m l) ≤ Z.to_nat m.
Proof.
  intros Hm. unfold Py.take_to.
  rewrite (proj2 (Z.leb_le 0 m)) by done. rewrite length_take. lia.
Qed.

Lemma add_terms_length tag indicators terms extra fields :
  length (_add_terms tag indicators terms extra fields)
  ≤ length fields + length terms.
Proof.
  unfold _add_terms. revert fields.
  induction terms as [|t terms IH]; intros fields; simpl; [lia|].
  etrans; [apply IH|]. case_decide; [|lia].
  unfold add, add_field. rewrite length_app. simpl. lia.
Qed.

Lemma add_terms_multiple_vocabularies_length tag terms_uris fi fb fields :
  length (_add_terms_multiple_vocabularies tag terms_uris fi fb fields)
  ≤ length fields + length terms_uris.
Proof.
  unfold _add_terms_multiple_vocabularies. revert fields.
  induction terms_uris as [|[t u] l IH]; intros fields; simpl; [lia|].
  etrans; [apply IH|].
  repeat (case_decide || case_match);
    unfold add, add_field; rewrite ?length_app; simpl; lia.
Qed.

(** Where the cap is applied it holds: the subject and name entries add at
    most [max] fields each. *)
Lemma capped_entries (s : self) (fields : list Field) :
  (0 ≤ max s)%Z →
  length (add_personal_name_subjects s fields) ≤ length fields + Z.to_nat (max s) ∧
  length (add_corporate_name_subjects s fields) ≤ length fields + Z.to_nat (max s) ∧
  length (add_topic_subjects s fields) ≤ length fields + Z.to_nat (max s) ∧
  length (add_geographic_subjects s fields) ≤ length fields + Z.to_nat (max s) ∧
  length (add_personal_creators_contributors s fields)
    ≤ length fields + Z.to_nat (max s) ∧
  length (add_corperate_creators_contributors s fields)
    ≤ length fields + Z.to_nat (max s).
Proof.
  intros Hm.
  split_and!;
    (etrans; [first [apply add_terms_multiple_vocabularies_length
                    |apply add_terms_length]|]);
    apply Nat.add_le_mono_l, length_take_to, Hm.
Qed.

(** C5 at a collection with six genres and six physical collections, built
    with the default cap of five: the topics are cut to five fields 650, but
    six fields 655 and six fields 534 are emitted. *)
Theorem genre_and_original_version_fields_uncapped :
  ∃ fields,
    main ∅ "261104" false six_term_rows = Ok fields ∧
    count_tag "650" fields = 5 ∧
    count_tag "655" fields = 6 ∧
    count_tag "534" fields = 6.
Proof. eexists. split; [vm_compute; reflexivity|]. by vm_compute. Qed.

(** The flag of the variant decides the columns of the geographic terms. *)
Lemma get_geographic_terms_variants (s : self) :
  get_geographic_terms s =
  if avian s then _get_terms (metadata s) ["geographic_subject_geonames"] ";"
  else _get_terms (metadata s)
         ["geographic_subject_fast"; "geographic_subject_local"] ";".
Proof. done. Qed.

(** C6 on the code: the call that selects the avian variant passes a keyword
    the constructor does not have, so no record is built, whatever the rows. *)
Theorem main_avian_raises (table : gmap string string) (today : string)
    (rows : list row) :
  main table today true rows
  = Raise (TypeError "__init__() got an unexpected keyword argument 'avian'").
Proof. done. Qed.

(** The standard call always reads the general geographic columns: the
    geo-names column has no effect on the record. *)
Lemma standard_record_ignores_geonames :
  let r : row :=
    {[ "title" := "Birds"; "digital_collection" := "Birds online";
       "ark" := "ark:/1"; "description" := "Field notes.";
       "date_original" := "1950"; "language" := "eng";
       "geographic_subject_geonames" := "Ames" ]} in
  main ∅ "261104" false [r]
  = main ∅ "261104" false [delete "geographic_subject_geonames" r].
Proof. by vm_compute. Qed.
End cap_and_variants.

(** ** When a record is built *)

Section failures.
Import MarcupRecord IslandoraRecord.

Lemma bind_Ok_l {A B} (a : A) (f : A → result B) : Ok a ≫= f = f a.
Proof. done. Qed.

Lemma getitem_Ok (r : row) key v : getitem r key = Ok v ↔ r !! key = Some v.
Proof. unfold getitem. destruct (r !! key); split; congruence. Qed.



Lemma split_not_nil sep s : Py.split sep s ≠ [].
Proof.
  destruct s as [|c s]; [done|]. simpl.
  case_decide; [done|]. by destruct (Py.split sep s).
Qed.














(** The aggregations themselves never fail: a column that no row fills gives
    the empty list, and an absent disclaimer column the empty string. *)
Lemma get_terms_unfilled_column (rows : list row) (column : string) sep :
  Forall (λ r, r !! column = None ∨ r !! column = Some "") rows →
  _get_terms rows [column] sep = [].
Proof.
  intros Hrows. rewrite get_terms_scan.
  assert (scanned_terms rows [column] sep = []) as ->; [|done].
  unfold scanned_terms. rewrite bind_singleton.
  induction Hrows as [|r rows Hr _ IH]; [done|].
  rewrite bind_cons, IH. by destruct Hr as [-> | ->].
Qed.

Lemma get_disclaimer_absent (s : self) r0 rest :
  metadata s = r0 :: rest → r0 !! "disclaimer" = None →
  get_disclaimer s = Ok "".
Proof. intros Hm Hd. unfold get_disclaimer. rewrite Hm. cbn. by rewrite Hd. Qed.
End failures.

(** ** Further facts on the aggregators *)

Section aggregator_cells.
Import MarcupRecord IslandoraRecord.

Lemma split_without_separator (sep : ascii) (t : string) :
  Py.contains (String sep "") t = false → Py.split sep t = [t].
Proof.
  unfold Py.contains. induction t as [|c t IH]; [done|].
  rewrite find_eq. cbn [String.prefix Py.split].
  destruct (ascii_dec sep c) as [->|Hne]; [by destruct t|].
  rewrite decide_False by done.
  destruct (Py.find (String sep "") t) as [[b a]|]; [done|].
  intros _. by rewrite IH.
Qed.

(** Both branches of the plain aggregator hand over the pieces of the cell:
    a non-empty cell counts as its split on the separator. *)
Lemma cell_terms_split (sep : ascii) (t : string) :
  t ≠ "" → cell_terms sep t = Py.split sep t.
Proof.
  intros Ht. unfold cell_terms. rewrite decide_True by done.
  destruct (Py.contains (String sep "") t) eqn:Hc; [done|].
  by rewrite split_without_separator.
Qed.

Lemma cell_terms_empty (sep : ascii) : cell_terms sep "" = [].
Proof. done. Qed.

(** In the plain aggregator a row without the column stands for an empty
    cell. *)
Lemma scanned_terms_missing_column (r : row) (rows : list row) column sep :
  r !! column = None →
  scanned_terms (r :: rows) [column] sep
  = scanned_terms (<[column := ""]> r :: rows) [column] sep.
Proof.
  intros Hr. unfold scanned_terms. rewrite !bind_singleton, !bind_cons.
  by rewrite Hr, lookup_insert_eq.
Qed.

(** The order of the paired aggregator is that of the plain one. *)
Lemma get_terms_and_uris_frequency_order (rows : list row) (args : list string)
    (N : Z) (i j : nat) (a b : string * string) :
  let scan := scanned_terms_and_uris rows args in
  let top := Py.take_to N (_get_terms_and_uris rows args) in
  i < j → top !! i = Some a → top !! j = Some b →
  occurrences b scan ≤ occurrences a scan ∧
  (occurrences a scan = occurrences b scan →
   ∃ p q, scan = p ++ a :: q ∧ (a ∉ p) ∧ (b ∉ p)).
Proof.
  intros scan top Hij Ha%take_to_lookup Hb%take_to_lookup.
  rewrite get_terms_and_uris_scan in Ha, Hb.
  by apply (most_common_order scan i j).
Qed.

(** The scenarios of the specification: a cell of three terms, and two name
    subjects, one with a FAST uri and one with an empty uri cell. *)
Lemma delimiter_round_trip :
  _get_terms [{["topic" := "A;B;C"]}] ["topic"] ";" = ["A"; "B"; "C"] ∧
  occurrences "A" (scanned_terms [{["topic" := "A;B;C"]}] ["topic"] ";") = 1.
Proof. by vm_compute. Qed.

Lemma fast_and_local_name_subjects :
  let rows : list row :=
    [ {[ "personal_name_subject" := "Carver, George";
         "personal_name_subject_valueURI" := "http://id.worldcat.org/fast/29931" ]};
      {[ "personal_name_subject" := "Smith, Jane";
         "personal_name_subject_valueURI" := "" ]} ] in
  add_personal_name_subjects (Self rows false 5 ∅) []
  = [ DataField "600" (Str "1", Str "7")
        [(Str "a", Str "Carver, George"); (Str "2", Str "fast")];
      DataField "600" (Str "1", Str "7")
        [(Str "a", Str "Smith, Jane"); (Str "2", Str "local")] ].
Proof. by vm_compute. Qed.
End aggregator_cells.

(** * Further properties of the code *)

(** ** The counter and the terms it returns *)

Section counter_invariants.
Import MarcupRecord IslandoraRecord.

Lemma update_sum {K} `{EqDecision K} (c : list (K * nat)) (x : K) :
  sum_list (_update_term_counting_dict c x).*2 = S (sum_list c.*2).
Proof.
  induction c as [|[k n] c IH]; [done|]. cbn [_update_term_counting_dict].
  case_decide; [done|]. rewrite !fmap_cons. simpl. rewrite IH. lia.
Qed.

Lemma counter_sum {K} `{EqDecision K} (l : list K) (c : list (K * nat)) :
  sum_list (foldl _update_term_counting_dict c l).*2
  = sum_list c.*2 + length l.
Proof.
  revert c. induction l as [|x l IH]; intros c; simpl; [lia|].
  rewrite IH, update_sum. lia.
Qed.

(** X1. After any sequence of updates from the empty dictionary, the keys of
    the counter are distinct, a key is there exactly when it was handed
    over, its count is the number of times it was, and the counts add up to
    the number of updates. *)
Theorem term_counter_invariants {K} `{EqDecision K} (l : list K) :
  let counter := foldl _update_term_counting_dict [] l in
  NoDup counter.*1 ∧
  (∀ k n, (k, n) ∈ counter ↔ k ∈ l ∧ n = occurrences k l) ∧
  sum_list counter.*2 = length l.
Proof.
  intros counter. subst counter. split_and!.
  - rewrite counter_spec, <-list_fmap_compose, list_fmap_id.
    apply NoDup_first_seen.
  - intros k n. rewrite counter_spec, list_elem_of_fmap. split.
    + intros (k' & Heq & Hk). injection Heq as -> ->. split; [|done].
      by apply (proj1 (elem_of_first_seen _ _)).
    + intros [Hk ->]. exists k. split; [done|].
      by apply (proj2 (elem_of_first_seen _ _)).
  - by rewrite counter_sum.
Qed.

(** X2. The plain aggregator returns every term once, and a term is returned
    exactly when it is a piece of a non-empty cell of a requested column in
    some row; the cells of all the requested columns feed one list. *)
Theorem get_terms_membership (rows : list row) (args : list string)
    (sep : ascii) :
  NoDup (_get_terms rows args sep) ∧
  ∀ a, a ∈ _get_terms rows args sep ↔
       ∃ column r t, column ∈ args ∧ r ∈ rows ∧ r !! column = Some t ∧
                     t ≠ "" ∧ a ∈ Py.split sep t.
Proof.
  destruct (get_terms_elements rows args sep) as [Hnodup Hin].
  split; [done|]. intros a. rewrite Hin. unfold scanned_terms.
  rewrite list_elem_of_bind. split.
  - intros (column & Ha & Hcolumn).
    apply list_elem_of_bind in Ha as (r & Ha & Hr).
    destruct (r !! column) as [t|] eqn:Ht; simpl in Ha;
      [|by apply elem_of_nil in Ha].
    destruct (decide (t = "")) as [->|Hne]; [by apply elem_of_nil in Ha|].
    rewrite cell_terms_split in Ha by done. by exists column, r, t.
  - intros (column & r & t & Hcolumn & Hr & Ht & Hne & Ha).
    exists column. split; [|done]. apply list_elem_of_bind.
    exists r. split; [|done]. rewrite Ht. simpl.
    by rewrite cell_terms_split.
Qed.
End counter_invariants.

(** ** What the emitting methods append *)

Section emitters.
Import MarcupRecord IslandoraRecord.

Lemma foldl_append {A B} (step : list A → B → list A) (emit : B → list A)
    (l : list B) (fields : list A) :
  (∀ fields x, step fields x = fields ++ emit x) →
  foldl step fields l = fields ++ (l ≫= emit).
Proof.
  intros Hstep. revert fields.
  induction l as [|x l IH]; intros fields; simpl; [by rewrite app_nil_r|].
  by rewrite IH, Hstep, <-app_assoc.
Qed.

Lemma bind_filter_singleton {A B} (P : A → Prop) `{!∀ x, Decision (P x)}
    (f : A → B) (l : list A) :
  (l ≫= λ x, if decide (P x) then [f x] else []) = f <$> filter P l.
Proof.
  induction l as [|x l IH]; [done|].
  rewrite bind_cons, filter_cons, IH. by destruct (decide (P x)).
Qed.

(** X3. [_add_terms] appends one field per non-empty term, in the order of
    the terms: subfield a holds the term and the extra subfields follow.  An
    empty term gives no field. *)
Theorem add_terms_fields (tag : string) (indicators : value * value)
    (terms : list string) (extra_subfields : list value)
    (fields : list Field) :
  _add_terms tag indicators terms extra_subfields fields
  = fields ++
    ((λ term, DataField tag indicators
                ((Str "a", Str term) :: convert_legacy_subfields extra_subfields))
       <$> filter (λ term, term ≠ "") terms).
Proof.
  unfold _add_terms. rewrite <-bind_filter_singleton.
  apply foldl_append. intros fs term. by case_decide; [|rewrite app_nil_r].
Qed.

Lemma add_terms_emitted tag indicators terms extra fields :
  _add_terms tag indicators terms extra fields
  = fields ++
    ((λ term, DataField tag indicators
                ((Str "a", Str term) :: convert_legacy_subfields extra))
       <$> filter (λ term, term ≠ "") terms).
Proof.
  unfold _add_terms. rewrite <-bind_filter_singleton.
  apply foldl_append. intros fs term. by case_decide; [|rewrite app_nil_r].
Qed.

Lemma tags_replicate {A} (tag : string) (mk : A → Field) (l : list A) :
  (∀ x, tag_of (mk x) = tag) →
  tag_of <$> (mk <$> l) = replicate (length l) tag.
Proof.
  intros Hmk. induction l as [|x l IH]; [done|].
  rewrite !fmap_cons, Hmk, IH. done.
Qed.

Lemma tags_add fields tag indicators subfields :
  tag_of <$> add fields tag indicators subfields = (tag_of <$> fields) ++ [tag].
Proof. unfold add, add_field. by rewrite fmap_app. Qed.

Lemma tags_add_terms tag indicators terms extra fields :
  tag_of <$> _add_terms tag indicators terms extra fields
  = (tag_of <$> fields) ++
    replicate (length (filter (λ term, term ≠ "") terms)) tag.
Proof.
  rewrite add_terms_emitted, fmap_app. f_equal. by apply tags_replicate.
Qed.

(** The fields of the name and subject entries, blank terms left out. *)
Lemma add_term_uri_emitted tag fi fb fields tu :
  ∃ f, tag_of f = tag ∧
       add_term_uri tag fi fb fields tu
       = fields ++ (if decide (Py.strip tu.1 ≠ "") then [f] else []).
Proof.
  destruct tu as [t u]. unfold add_term_uri. simpl.
  destruct (decide (Py.strip t ≠ "")).
  - repeat case_match;
      (eexists; split; [|unfold add, add_field; reflexivity]; done).
  - exists (ControlField tag ""). by rewrite app_nil_r.
Qed.

Lemma tags_add_terms_multiple_vocabularies tag terms_uris fi fb fields :
  tag_of <$> _add_terms_multiple_vocabularies tag terms_uris fi fb fields
  = (tag_of <$> fields) ++
    replicate (length (filter (λ tu, Py.strip tu.1 ≠ "") terms_uris)) tag.
Proof.
  unfold _add_terms_multiple_vocabularies. revert fields.
  induction terms_uris as [|tu l IH]; intros fields; simpl.
  - by rewrite app_nil_r.
  - rewrite IH. destruct (add_term_uri_emitted tag fi fb fields tu) as (f & Hf & ->).
    rewrite filter_cons. destruct (decide (Py.strip tu.1 ≠ "")).
    + rewrite fmap_app, <-app_assoc. simpl. by rewrite Hf.
    + by rewrite app_nil_r.
Qed.

Lemma tags_foldl_add {A} (tag : string) (indicators : value * value)
    (subfields : A → list value) (l : list A) fields :
  tag_of <$> foldl (λ fields x, add fields tag indicators (subfields x)) fields l
  = (tag_of <$> fields) ++ replicate (length l) tag.
Proof.
  revert fields. induction l as [|x l IH]; intros fields; simpl.
  - by rewrite app_nil_r.
  - rewrite IH, tags_add, <-app_assoc. done.
Qed.

Lemma tags_add_original_versions cs ns fields :
  tag_of <$> add_original_versions cs ns fields
  = (tag_of <$> fields) ++ replicate (length (zip cs ns)) "534".
Proof. apply tags_foldl_add. Qed.

Lemma tags_add_finding_aid_links s fields :
  tag_of <$> add_finding_aid_links s fields
  = (tag_of <$> fields) ++
    replicate (length (zip (Py.take_to (max s) (get_original_collections s))
                           (Py.take_to (max s) (get_original_arks s)))) "856".
Proof.
  unfold add_finding_aid_links.
  rewrite <-(tags_foldl_add "856" (Str "4", Str "2")
               (λ ca : string * string,
                  [Str "3"; Str ("Finding aid for " +:+ title_case ca.1);
                   Str "u"; Str ca.2])).
  f_equal. apply foldl_pointwise. by intros fs [c a].
Qed.
End emitters.

(** ** The geographic area codes *)

Section area_code_field.
Import MarcupRecord IslandoraRecord.

Lemma existsb_contains needle (terms : list string) :
  existsb (Py.contains needle) terms = true ↔
  Exists (λ term, occurs_in needle term) terms.
Proof.
  induction terms as [|t terms IH]; simpl.
  - split; [done|]. by intros ?%Exists_nil.
  - rewrite orb_true_iff, IH, Exists_cons. unfold occurs_in.
    by rewrite <-contains_spec.
Qed.

Lemma snoc_not_nil {A} (l : list A) (x : A) : l ++ [x] ≠ [].
Proof. by destruct l. Qed.

Lemma Exists_Forall_not {A} (P : A → Prop) (l : list A) :
  Exists P l → Forall (λ x, ¬ P x) l → False.
Proof.
  intros (x & Hx & HP)%Exists_exists Hall.
  rewrite Forall_forall in Hall. by eapply Hall.
Qed.

(** The loop of [add_geographic_area_codes]: the codes found, in the order
    of the terms, and whether a term mentions Iowa. *)
Lemma add_geographic_area_codes_emitted (s : self) (terms : list string)
    (fields : list Field) :
  let codes :=
    (Str <$> omap (λ term, area_codes s !! term) terms) ++
    (if existsb (Py.contains "Iowa") terms
     then [from_option Str NoneV (area_codes s !! "Iowa")] else []) in
  add_geographic_area_codes s terms fields =
  if decide (codes ≠ []) then
    fields ++ [DataField "043" (Str " ", Str " ") ((λ c, (Str "a", c)) <$> codes)]
  else fields.
Proof.
  intros codes. unfold add_geographic_area_codes.
  match goal with
  | |- context [foldl ?f _ terms] =>
      assert (∀ cs b, foldl f (cs, b) terms
                      = (cs ++ (Str <$> omap (λ term, area_codes s !! term) terms),
                         b || existsb (Py.contains "Iowa") terms)) as Hfold
  end.
  { clear. induction terms as [|t terms IH]; intros cs b; simpl.
    - by rewrite app_nil_r, orb_false_r.
    - destruct (area_codes s !! t) as [code|]; rewrite IH; simpl.
      + rewrite <-app_assoc. simpl.
        by destruct (Py.contains "Iowa" t), b.
      + by destruct (Py.contains "Iowa" t), b. }
  rewrite Hfold. simpl. subst codes.
  destruct (existsb (Py.contains "Iowa") terms).
  - rewrite !decide_True by apply snoc_not_nil.
    unfold add, add_field. by rewrite convert_repeat_subfields.
  - rewrite !app_nil_r. case_decide; [|done].
    unfold add, add_field. by rewrite convert_repeat_subfields.
Qed.

(** X4. Field 043 lists, in subfields a, the codes of the geographic terms
    that the table knows, in the order of the terms; when some term mentions
    Iowa, one more subfield a follows with the entry of the table for Iowa,
    which is [None] when the table has none.  Without any code and any
    mention of Iowa no field is added. *)
Theorem geographic_area_codes_field (s : self) (terms : list string)
    (fields : list Field) :
  let found :=
    (λ code, (Str "a", Str code)) <$> omap (λ term, area_codes s !! term) terms in
  let added := add_geographic_area_codes s terms fields in
  (Forall (λ term, ¬ occurs_in "Iowa" term) terms → found = [] →
   added = fields) ∧
  (Forall (λ term, ¬ occurs_in "Iowa" term) terms → found ≠ [] →
   added = fields ++ [DataField "043" (Str " ", Str " ") found]) ∧
  (Exists (λ term, occurs_in "Iowa" term) terms →
   added = fields ++
           [DataField "043" (Str " ", Str " ")
              (found ++ [(Str "a", from_option Str NoneV (area_codes s !! "Iowa"))])]).
Proof.
  intros found added. subst added found.
  rewrite add_geographic_area_codes_emitted.
  destruct (existsb (Py.contains "Iowa") terms) eqn:Hiowa.
  - apply existsb_contains in Hiowa. split_and!.
    + intros Hno. exfalso. by eapply Exists_Forall_not.
    + intros Hno. exfalso. by eapply Exists_Forall_not.
    + intros _. rewrite decide_True by apply snoc_not_nil.
      by rewrite fmap_app, <-list_fmap_compose.
  - assert (¬ Exists (λ term, occurs_in "Iowa" term) terms) as Hno.
    { rewrite <-existsb_contains. congruence. }
    rewrite app_nil_r, <-list_fmap_compose. split_and!.
    + intros _ Hfound. apply fmap_nil_inv in Hfound. rewrite Hfound.
      by rewrite decide_False by (by intros []).
    + intros _ Hfound. rewrite decide_True; [done|].
      intros Hnil. apply Hfound. apply fmap_nil_inv in Hnil. by rewrite Hnil.
    + done.
Qed.

Lemma tags_add_geographic_area_codes s terms fields :
  ∃ n, n ≤ 1 ∧
    tag_of <$> add_geographic_area_codes s terms fields
    = (tag_of <$> fields) ++ replicate n "043" ∧
    (n = 0 ↔
     omap (λ term, area_codes s !! term) terms = [] ∧
     Forall (λ term, ¬ occurs_in "Iowa" term) terms).
Proof.
  rewrite add_geographic_area_codes_emitted. cbv zeta.
  destruct (existsb (Py.contains "Iowa") terms) eqn:Hiowa.
  - exists 1. rewrite decide_True by apply snoc_not_nil.
    split_and!; [lia|by rewrite fmap_app|].
    split; [done|]. intros [_ Hno]. apply existsb_contains in Hiowa.
    exfalso. by eapply Exists_Forall_not.
  - assert (Forall (λ term, ¬ occurs_in "Iowa" term) terms) as Hno.
    { apply Forall_forall. intros t Ht Hocc.
      assert (existsb (Py.contains "Iowa") terms = true); [|congruence].
      apply existsb_contains, Exists_exists. eauto. }
    rewrite app_nil_r.
    destruct (omap (λ term, area_codes s !! term) terms) as [|c cs] eqn:Hfound.
    + exists 0. simpl. split_and!; [lia|by rewrite app_nil_r|done].
    + exists 1. rewrite decide_True by done.
      split_and!; [lia|by rewrite fmap_app|]. split; [done|]. by intros [? _].
Qed.
End area_code_field.

(** ** The order of the fields of a record *)

Section record_order.
Import MarcupRecord IslandoraRecord.

Lemma tags_add_preferred_citation s dc fields :
  tag_of <$> add_preferred_citation s dc fields = (tag_of <$> fields) ++ ["524"].
Proof. apply tags_add. Qed.

Lemma tags_add_personal_name_subjects s fields :
  tag_of <$> add_personal_name_subjects s fields
  = (tag_of <$> fields) ++
    replicate (length (filter (λ tu, Py.strip tu.1 ≠ "")
                         (Py.take_to (max s) (get_personal_name_subjects s))))
              "600".
Proof. apply tags_add_terms_multiple_vocabularies. Qed.

Lemma tags_add_corporate_name_subjects s fields :
  tag_of <$> add_corporate_name_subjects s fields
  = (tag_of <$> fields) ++
    replicate (length (filter (λ tu, Py.strip tu.1 ≠ "")
                         (Py.take_to (max s) (get_corporate_name_subjects s))))
              "610".
Proof. apply tags_add_terms_multiple_vocabularies. Qed.

Lemma tags_add_topic_subjects s fields :
  tag_of <$> add_topic_subjects s fields
  = (tag_of <$> fields) ++
    replicate (length (filter (λ term, term ≠ "")
                         (Py.take_to (max s) (get_topic_subjects s)))) "650".
Proof. apply tags_add_terms. Qed.

Lemma tags_add_geographic_subjects s fields :
  tag_of <$> add_geographic_subjects s fields
  = (tag_of <$> fields) ++
    replicate (length (filter (λ term, term ≠ "")
                         (Py.take_to (max s) (get_geographic_terms s)))) "651".
Proof. apply tags_add_terms. Qed.

Lemma tags_add_genre_forms s fields :
  tag_of <$> add_genre_forms s fields
  = (tag_of <$> fields) ++
    replicate (length (filter (λ term, term ≠ "") (get_genre_forms s))) "655".
Proof. apply tags_add_terms. Qed.

Lemma tags_add_personal_creators_contributors s fields :
  tag_of <$> add_personal_creators_contributors s fields
  = (tag_of <$> fields) ++
    replicate (length (filter (λ term, term ≠ "")
                         (Py.take_to (max s)
                            (get_personal_creators_contributors s)))) "700".
Proof. apply tags_add_terms. Qed.

Lemma tags_add_corperate_creators_contributors s fields :
  tag_of <$> add_corperate_creators_contributors s fields
  = (tag_of <$> fields) ++
    replicate (length (filter (λ term, term ≠ "")
                         (Py.take_to (max s)
                            (get_corporate_creators_contributors s)))) "710".
Proof. apply tags_add_terms. Qed.

(** The tags of a record that is built, in full. *)
Lemma init_tags table today rows max fields :
  let s := Self rows false max table in
  __init__ table today rows max = Ok fields →
  ∃ disclaimer n043,
    get_disclaimer s = Ok disclaimer ∧
    n043 ≤ 1 ∧
    (n043 = 0 ↔
     omap (λ term, table !! term) (get_geographic_terms s) = [] ∧
     Forall (λ term, ¬ occurs_in "Iowa" term) (get_geographic_terms s)) ∧
    tag_of <$> fields =
      (if decide (1 < length (get_languages s)) then ["041"] else []) ++
      ["008"; "040"] ++ replicate n043 "043" ++
      ["245"; "264"; "300"; "545"; "520"; "506"; "524"] ++
      replicate (length (zip (get_original_collections s)
                             (get_original_call_numbers s))) "534" ++
      (if decide (disclaimer ≠ "") then ["500"] else []) ++
      replicate (length (filter (λ tu, Py.strip tu.1 ≠ "")
                           (Py.take_to max (get_personal_name_subjects s)))) "600" ++
      replicate (length (filter (λ tu, Py.strip tu.1 ≠ "")
                           (Py.take_to max (get_corporate_name_subjects s)))) "610" ++
      replicate (length (filter (λ term, term ≠ "")
                           (Py.take_to max (get_topic_subjects s)))) "650" ++
      replicate (length (filter (λ term, term ≠ "")
                           (Py.take_to max (get_geographic_terms s)))) "651" ++
      replicate (length (filter (λ term, term ≠ "") (get_genre_forms s))) "655" ++
      replicate (length (filter (λ term, term ≠ "")
                           (Py.take_to max
                              (get_personal_creators_contributors s)))) "700" ++
      replicate (length (filter (λ term, term ≠ "")
                           (Py.take_to max
                              (get_corporate_creators_contributors s)))) "710" ++
      ["710"; "856"] ++
      replicate (length (zip (Py.take_to max (get_original_collections s))
                             (Py.take_to max (get_original_arks s)))) "856".
Proof.
  intros s. unfold __init__. fold s. intros H.
  apply bind_Ok in H as (disclaimer & Hdisclaimer & H).
  apply bind_Ok in H as (cm & Hcm & H).
  apply bind_Ok in H as (dc & Hdc & H).
  apply bind_Ok in H as (years & Hyears & H).
  apply bind_Ok in H as ([bio_hist summary] & Hdescr & H).
  apply bind_Ok in H as ([data first] & H008 & H).
  apply bind_Ok in H as (title & Htitle & H).
  apply bind_Ok in H as (n & Hcount & H).
  apply bind_Ok in H as (title856 & Ht856 & H).
  apply bind_Ok in H as (ark856 & Hark856 & H).
  injection H as <-.
  unfold generate_008_field in H008.
  apply bind_Ok in H008 as (lang0 & Hlang0 & H008).
  injection H008 as <- <-.
  rewrite tags_add_finding_aid_links, !tags_add.
  rewrite tags_add_corperate_creators_contributors,
    tags_add_personal_creators_contributors, tags_add_genre_forms,
    tags_add_geographic_subjects, tags_add_topic_subjects,
    tags_add_corporate_name_subjects, tags_add_personal_name_subjects.
  assert (∀ F, tag_of <$>
                 (if decide (disclaimer ≠ "")
                  then add F "500" (Str " ", Str " ") [Str "a"; Str disclaimer]
                  else F)
               = (tag_of <$> F) ++ (if decide (disclaimer ≠ "") then ["500"] else []))
    as H500.
  { intros F. case_decide; [apply tags_add|by rewrite app_nil_r]. }
  rewrite H500, tags_add_original_versions, tags_add_preferred_citation, !tags_add.
  match goal with
  | |- context [add_geographic_area_codes ?s' ?t ?f] =>
      destruct (tags_add_geographic_area_codes s' t f) as (n043 & Hle & -> & Hn043)
  end.
  rewrite tags_add. unfold add_field. rewrite fmap_app.
  assert (tag_of <$>
            (if decide (1 < length (get_languages s))
             then add_041_field s (Some (get_languages s)) [] else [])
          = if decide (1 < length (get_languages s)) then ["041"] else []) as ->.
  { destruct (decide (1 < length (get_languages s)));
      [apply (tags_add [])|done]. }
  exists disclaimer, n043. split_and!; [done..|].
  rewrite <-!app_assoc. reflexivity.
Qed.
End record_order.

Section record_order_theorems.
Import MarcupRecord IslandoraRecord.

(** X5. The fields of a record that is built come in one fixed order of
    tags: 041 (at most once), 008, 040, 043 (at most once), 245, 264, 300,
    545, 520, 506, 524, the 534s, 500 (at most once), the 600s, 610s, 650s,
    651s, 655s, 700s and 710s of the terms, the fixed 710, the 856 of the
    collection and the 856s of the finding aids. *)
Theorem record_field_order (table : gmap string string) (today : string)
    (rows : list row) (max : Z) (fields : list Field) :
  __init__ table today rows max = Ok fields →
  ∃ n041 n043 n534 n500 n600 n610 n650 n651 n655 n700 n710 n856,
    n041 ≤ 1 ∧ n043 ≤ 1 ∧ n500 ≤ 1 ∧
    tag_of <$> fields =
      replicate n041 "041" ++ ["008"; "040"] ++ replicate n043 "043" ++
      ["245"; "264"; "300"; "545"; "520"; "506"; "524"] ++
      replicate n534 "534" ++ replicate n500 "500" ++
      replicate n600 "600" ++ replicate n610 "610" ++
      replicate n650 "650" ++ replicate n651 "651" ++
      replicate n655 "655" ++ replicate n700 "700" ++
      replicate n710 "710" ++ ["710"; "856"] ++ replicate n856 "856".
Proof.
  intros Hinit.
  destruct (init_tags _ _ _ _ _ Hinit) as (disclaimer & n043 & _ & Hn043 & _ & ->).
  set (s := Self rows false max table).
  exists (if decide (1 < length (get_languages s)) then 1 else 0), n043.
  eexists _, (if decide (disclaimer ≠ "") then 1 else 0).
  eexists _, _, _, _, _, _, _, _.
  split_and!; [by case_decide; lia|done|by case_decide; lia|].
  destruct (decide (1 < length (get_languages s))), (decide (disclaimer ≠ ""));
    reflexivity.
Qed.

Lemma record_field_order_witness :
  ∃ n041 n043 n534 n500 n600 n610 n650 n651 n655 n700 n710 n856,
    n041 ≤ 1 ∧ n043 ≤ 1 ∧ n500 ≤ 1 ∧
    tag_of <$> two_language_fields =
      replicate n041 "041" ++ ["008"; "040"] ++ replicate n043 "043" ++
      ["245"; "264"; "300"; "545"; "520"; "506"; "524"] ++
      replicate n534 "534" ++ replicate n500 "500" ++
      replicate n600 "600" ++ replicate n610 "610" ++
      replicate n650 "650" ++ replicate n651 "651" ++
      replicate n655 "655" ++ replicate n700 "700" ++
      replicate n710 "710" ++ ["710"; "856"] ++ replicate n856 "856".
Proof.
  apply (record_field_order ∅ "261104" two_language_rows 5 two_language_fields).
  vm_compute. reflexivity.
Defined.

Lemma count_tag_tags tag fields :
  count_tag tag fields = length (filter (λ t, t = tag) (tag_of <$> fields)).
Proof.
  unfold count_tag. induction fields as [|f fields IH]; [done|].
  rewrite fmap_cons, !filter_cons.
  destruct (decide (tag_of f = tag)); simpl; by rewrite IH.
Qed.

Lemma count_app (tag : string) (l k : list string) :
  length (filter (λ t, t = tag) (l ++ k))
  = length (filter (λ t, t = tag) l) + length (filter (λ t, t = tag) k).
Proof. by rewrite filter_app, length_app. Qed.

Lemma count_replicate (tag t : string) n :
  length (filter (λ t, t = tag) (replicate n t))
  = if decide (t = tag) then n else 0.
Proof.
  induction n as [|n IH]; [by case_decide|].
  cbn [replicate]. rewrite filter_cons.
  destruct (decide (t = tag)); simpl; by rewrite IH.
Qed.

Lemma count_if (tag : string) (b : Prop) `{!Decision b} (t : string) :
  length (filter (λ t, t = tag) (if decide b then [t] else []))
  = if decide (t = tag) then (if decide b then 1 else 0) else 0.
Proof.
  destruct (decide b); [|by case_decide].
  rewrite filter_cons. by destruct (decide (t = tag)).
Qed.

Ltac count_tags :=
  rewrite count_tag_tags;
  match goal with H : tag_of <$> _ = _ |- _ => rewrite H end;
  rewrite ?count_app, ?count_replicate, ?count_if;
  repeat (rewrite filter_cons, (decide_False (P := _ = _)) by done);
  repeat (rewrite (decide_False (P := _ = _)) by done);
  repeat (rewrite (decide_True (P := _ = _)) by done).

Lemma length_take_to_le {A} (m : Z) (l : list A) :
  (0 ≤ m)%Z → length (Py.take_to m l) ≤ Z.to_nat m.
Proof.
  intros Hm. unfold Py.take_to.
  rewrite (proj2 (Z.leb_le 0 m)) by done. rewrite length_take. lia.
Qed.

Lemma length_filter_take_to {A} (P : A → Prop) `{!∀ x, Decision (P x)}
    (m : Z) (l : list A) :
  (0 ≤ m)%Z → length (filter P (Py.take_to m l)) ≤ Z.to_nat m.
Proof.
  intros Hm. etrans; [apply length_filter|by apply length_take_to_le].
Qed.
(** X6. In a record that is built, the genre fields 655 are as many as the
    non-empty genre terms and the fields 534 as many as the shorter of the
    lists of physical collections and of call numbers: neither depends on
    [max].  For a [max] that is not negative there are at most [max] fields
    600, 610, 650, 651 and 700, and at most [max] + 1 fields 710 and 856. *)
Theorem term_field_counts (table : gmap string string) (today : string)
    (rows : list row) (max : Z) (fields : list Field) :
  let s := Self rows false max table in
  __init__ table today rows max = Ok fields →
  count_tag "655" fields = length (filter (λ term, term ≠ "") (get_genre_forms s)) ∧
  count_tag "534" fields
  = length (get_original_collections s) `min` length (get_original_call_numbers s) ∧
  ((0 ≤ max)%Z →
   count_tag "600" fields ≤ Z.to_nat max ∧
   count_tag "610" fields ≤ Z.to_nat max ∧
   count_tag "650" fields ≤ Z.to_nat max ∧
   count_tag "651" fields ≤ Z.to_nat max ∧
   count_tag "700" fields ≤ Z.to_nat max ∧
   count_tag "710" fields ≤ Z.to_nat max + 1 ∧
   count_tag "856" fields ≤ Z.to_nat max + 1).
Proof.
  intros s Hinit.
  destruct (init_tags _ _ _ _ _ Hinit) as (disclaimer & n043 & _ & _ & _ & Htags).
  fold s in Htags. split_and!.
  - count_tags. simpl. lia.
  - count_tags. simpl. rewrite length_zip. lia.
  - intros Hmax.
    pose proof (length_filter_take_to (λ tu : string * string, Py.strip tu.1 ≠ "")
                  max (get_personal_name_subjects s) Hmax).
    pose proof (length_filter_take_to (λ tu : string * string, Py.strip tu.1 ≠ "")
                  max (get_corporate_name_subjects s) Hmax).
    pose proof (length_filter_take_to (λ term : string, term ≠ "")
                  max (get_topic_subjects s) Hmax).
    pose proof (length_filter_take_to (λ term : string, term ≠ "")
                  max (get_geographic_terms s) Hmax).
    pose proof (length_filter_take_to (λ term : string, term ≠ "")
                  max (get_personal_creators_contributors s) Hmax).
    pose proof (length_filter_take_to (λ term : string, term ≠ "")
                  max (get_corporate_creators_contributors s) Hmax).
    pose proof (length_take_to_le max (get_original_collections s) Hmax).
    split_and!; count_tags; simpl; rewrite ?length_zip; lia.
Qed.

Lemma term_field_counts_witness :
  let s := Self six_term_rows false 5 ∅ in
  count_tag "655" six_term_fields
  = length (filter (λ term, term ≠ "") (get_genre_forms s)) ∧
  count_tag "534" six_term_fields
  = length (get_original_collections s) `min` length (get_original_call_numbers s) ∧
  ((0 ≤ 5)%Z →
   count_tag "600" six_term_fields ≤ Z.to_nat 5 ∧
   count_tag "610" six_term_fields ≤ Z.to_nat 5 ∧
   count_tag "650" six_term_fields ≤ Z.to_nat 5 ∧
   count_tag "651" six_term_fields ≤ Z.to_nat 5 ∧
   count_tag "700" six_term_fields ≤ Z.to_nat 5 ∧
   count_tag "710" six_term_fields ≤ Z.to_nat 5 + 1 ∧
   count_tag "856" six_term_fields ≤ Z.to_nat 5 + 1).
Proof.
  apply (term_field_counts ∅ "261104" six_term_rows 5 six_term_fields).
  vm_compute. reflexivity.
Defined.

(** X7. In a record that is built, field 041 is there exactly when the rows
    hold more than one language, field 500 exactly when the disclaimer is
    not empty, and field 043 exactly when the table knows a geographic term
    or a geographic term mentions Iowa; fields 545 and 520 are always there,
    once each, whatever their text. *)
Theorem optional_fields_presence (table : gmap string string) (today : string)
    (rows : list row) (max : Z) (fields : list Field) :
  let s := Self rows false max table in
  __init__ table today rows max = Ok fields →
  (count_tag "041" fields = if decide (1 < length (get_languages s)) then 1 else 0) ∧
  (∃ disclaimer,
     get_disclaimer s = Ok disclaimer ∧
     count_tag "500" fields = if decide (disclaimer ≠ "") then 1 else 0) ∧
  (count_tag "043" fields ≤ 1 ∧
   (count_tag "043" fields = 0 ↔
    omap (λ term, table !! term) (get_geographic_terms s) = [] ∧
    Forall (λ term, ¬ occurs_in "Iowa" term) (get_geographic_terms s))) ∧
  count_tag "545" fields = 1 ∧
  count_tag "520" fields = 1.
Proof.
  intros s Hinit.
  destruct (init_tags _ _ _ _ _ Hinit)
    as (disclaimer & n043 & Hdis & Hle & Hn043 & Htags).
  fold s in Htags, Hn043, Hdis.
  assert (count_tag "043" fields = n043) as H043 by (count_tags; simpl; lia).
  split_and!.
  - count_tags. simpl. lia.
  - exists disclaimer. split; [done|]. count_tags. simpl. lia.
  - by rewrite H043.
  - by rewrite H043.
  - count_tags. simpl. lia.
  - count_tags. simpl. lia.
Qed.

Lemma optional_fields_presence_witness :
  let s := Self two_language_rows false 5 ∅ in
  (count_tag "041" two_language_fields
   = if decide (1 < length (get_languages s)) then 1 else 0) ∧
  (∃ disclaimer,
     get_disclaimer s = Ok disclaimer ∧
     count_tag "500" two_language_fields = if decide (disclaimer ≠ "") then 1 else 0) ∧
  (count_tag "043" two_language_fields ≤ 1 ∧
   (count_tag "043" two_language_fields = 0 ↔
    omap (λ term, (∅ : gmap string string) !! term) (get_geographic_terms s) = [] ∧
    Forall (λ term, ¬ occurs_in "Iowa" term) (get_geographic_terms s))) ∧
  count_tag "545" two_language_fields = 1 ∧
  count_tag "520" two_language_fields = 1.
Proof.
  apply (optional_fields_presence ∅ "261104" two_language_rows 5 two_language_fields).
  vm_compute. reflexivity.
Defined.
(** *** The layout of field 008 *)

Lemma string_length_app (a b : string) :
  String.length (a +:+ b) = String.length a + String.length b.
Proof. induction a as [|c a IH]; [done|]. simpl. by rewrite IH. Qed.

Lemma substring_skip (a b : string) n :
  substring (String.length a) n (a +:+ b) = substring 0 n b.
Proof. induction a as [|c a IH]; [done|]. apply IH. Qed.

Lemma substring_whole (a b : string) :
  substring 0 (String.length a) (a +:+ b) = a.
Proof.
  induction a as [|c a IH]; [by destruct b|]. simpl. by rewrite IH.
Qed.

(** X19. A record that is built holds exactly one field 008.  Its data are
    the date, 29 characters the code fixes, the most common language and
    two closing characters: 37 characters and the language when the date
    has six, so 40 characters with the language at positions 35 to 37 when
    the language is a code of three letters. *)
Theorem control_field_008_layout (table : gmap string string) (today : string)
    (rows : list row) (max : Z) (fields : list Field) :
  let s := Self rows false max table in
  __init__ table today rows max = Ok fields →
  String.length today = 6 →
  ∃ lang0 data,
    get_languages s !! 0 = Some lang0 ∧
    filter (λ f, tag_of f = "008") fields = [ControlField "008" data] ∧
    String.length data = 37 + String.length lang0 ∧
    substring 0 6 data = today ∧
    substring 35 (String.length lang0) data = lang0.
Proof.
  intros s Hinit Htoday.
  destruct (init_tags _ _ _ _ _ Hinit)
    as (disclaimer & n043 & Hdis & Hle & Hn043 & Htags).
  fold s in Htags, Hn043, Hdis.
  assert (count_tag "008" fields = 1) as Hone by (count_tags; simpl; lia).
  apply init_Ok_fields in Hinit as (data & first & H008 & [rest ->]).
  fold s in H008. unfold generate_008_field in H008.
  apply bind_Ok in H008 as (lang0 & Hlang0 & H008).
  injection H008 as <- _.
  exists lang0. eexists. split_and!.
  - unfold index in Hlang0. destruct (get_languages s !! 0); by simplify_eq.
  - unfold count_tag in Hone. rewrite !filter_app, !length_app in Hone.
    rewrite !filter_app.
    rewrite (filter_cons _ (ControlField _ _)), decide_True in Hone |- * by done.
    simpl in Hone.
    destruct (filter _ first); [|simpl in Hone; lia].
    destruct (filter _ rest); [done|simpl in Hone; lia].
  - rewrite !string_length_app, Htoday. simpl. lia.
  - rewrite <-Htoday. apply substring_whole.
  - assert (String.length (today +:+ "         iau     o           ") = 35)
      as H35 by (by rewrite string_length_app, Htoday).
    rewrite <-H35, <-app_assoc_string, substring_skip.
    apply substring_whole.
Qed.

Lemma control_field_008_layout_witness :
  ∃ lang0 data,
    get_languages (Self two_language_rows false 5 ∅) !! 0 = Some lang0 ∧
    filter (λ f, tag_of f = "008") two_language_fields
    = [ControlField "008" data] ∧
    String.length data = 37 + String.length lang0 ∧
    substring 0 6 data = "261104" ∧
    substring 35 (String.length lang0) data = lang0.
Proof.
  apply (control_field_008_layout ∅ "261104" two_language_rows 5
           two_language_fields).
  - vm_compute. reflexivity.
  - reflexivity.
Defined.
End record_order_theorems.

(** ** The derived values *)

Section derived_values.
Import MarcupRecord IslandoraRecord.

Lemma find_first needle s before after pre post :
  Py.find needle s = Some (before, after) →
  s = pre +:+ needle +:+ post →
  String.length before ≤ String.length pre.
Proof.
  revert before pre. induction s as [|c s IH]; intros before pre; rewrite find_eq.
  - destruct (String.prefix needle ""); [|done]. intros [= <- <-] _. simpl. lia.
  - destruct (String.prefix needle (String c s)) eqn:Hp.
    + intros [= <- <-] _. simpl. lia.
    + destruct (Py.find needle s) as [[b a]|] eqn:Hf; [|done].
      intros [= <- <-] Hs. destruct pre as [|c' pre].
      * assert (String.prefix needle (String c s) = true) as Hp'; [|congruence].
        apply prefix_spec. by exists post.
      * rewrite app_String in Hs. injection Hs as _ Hs. simpl.
        apply le_n_S. by eapply IH.
Qed.

Lemma app_inj_length (a b x y : string) :
  String.length a = String.length b → a +:+ x = b +:+ y → a = b ∧ x = y.
Proof.
  revert b. induction a as [|c a IH]; intros [|c' b] Hlen Heq; try done.
  rewrite !app_String in Heq. injection Heq as -> Heq.
  destruct (IH b) as [-> ->]; [by injection Hlen|done..].
Qed.

(** The first occurrence of the needle decides what [find] returns. *)
Lemma find_first_occurrence needle s bio tail :
  s = bio +:+ needle +:+ tail →
  (∀ pre post, s = pre +:+ needle +:+ post →
               String.length bio ≤ String.length pre) →
  Py.find needle s = Some (bio, tail).
Proof.
  intros Hs Hmin.
  destruct (Py.find needle s) as [[b a]|] eqn:Hf;
    [|by eapply find_None in Hf].
  pose proof (find_Some _ _ _ _ Hf) as Hs'.
  pose proof (find_first _ _ _ _ _ _ Hf Hs) as Hle.
  pose proof (Hmin b a Hs') as Hge.
  rewrite Hs in Hs'.
  destruct (app_inj_length bio b (needle +:+ tail) (needle +:+ a)) as [-> Heq];
    [lia|done|].
  apply (inj (String.app needle)) in Heq. by rewrite Heq.
Qed.

(** X8. The description is cut at the first occurrence of the words The
    collection.  Without these words the whole description is the
    biographical note and the summary is empty.  Otherwise the note is what
    comes before them, and the summary is the title, a space and what comes
    after them; when nothing comes after them the summary is empty and the
    title is not read. *)
Theorem collection_descriptions_split (s : self) (r0 : row) (rest : list row)
    (d : string) :
  metadata s = r0 :: rest → r0 !! "description" = Some d →
  (¬ occurs_in "The collection" d → get_collection_descriptions s = Ok (d, "")) ∧
  (∀ bio tail,
     d = bio +:+ "The collection" +:+ tail →
     (∀ pre post, d = pre +:+ "The collection" +:+ post →
                  String.length bio ≤ String.length pre) →
     get_collection_descriptions s =
     if decide (tail = "") then Ok (bio, "")
     else match r0 !! "title" with
          | Some title => Ok (bio, title +:+ " " +:+ tail)
          | None => Raise (KeyError "title")
          end).
Proof.
  intros Hm Hd. unfold get_collection_descriptions. rewrite Hm.
  change (index (r0 :: rest) 0) with (Ok r0). rewrite bind_Ok_l.
  unfold getitem. rewrite Hd, bind_Ok_l. unfold Py.partition. split.
  - intros Hno. apply contains_false in Hno. unfold Py.contains in Hno.
    destruct (Py.find "The collection" d) as [[b a]|]; [done|]. done.
  - intros bio tail Hs Hmin.
    rewrite (find_first_occurrence _ _ _ _ Hs Hmin).
    destruct (decide (tail = "")) as [->|Hne].
    + done.
    + rewrite decide_True by done. by destruct (r0 !! "title").
Qed.

Lemma collection_descriptions_split_witness :
  let d := "A farmer. The collection holds letters." in
  let r0 : row := {[ "title" := "Papers"; "description" := d ]} in
  let s := Self [r0] false 5 ∅ in
  (¬ occurs_in "The collection" d → get_collection_descriptions s = Ok (d, "")) ∧
  (∀ bio tail,
     d = bio +:+ "The collection" +:+ tail →
     (∀ pre post, d = pre +:+ "The collection" +:+ post →
                  String.length bio ≤ String.length pre) →
     get_collection_descriptions s =
     if decide (tail = "") then Ok (bio, "")
     else match r0 !! "title" with
          | Some title => Ok (bio, title +:+ " " +:+ tail)
          | None => Raise (KeyError "title")
          end).
Proof.
  intros d r0 s.
  apply (collection_descriptions_split s r0 [] d); reflexivity.
Defined.

Lemma join_cons_nonempty sep w ws :
  ws ≠ [] → Py.join sep (w :: ws) = w +:+ sep +:+ Py.join sep ws.
Proof. by destruct ws. Qed.

(** Joining the pieces of a split with the separator gives the string back. *)
Lemma join_split (sep : ascii) (s : string) :
  Py.join (String sep "") (Py.split sep s) = s.
Proof.
  induction s as [|c s IH]; [done|]. cbn [Py.split].
  pose proof (split_not_nil sep s) as Hne.
  destruct (decide (c = sep)) as [->|Hc].
  - rewrite join_cons_nonempty by done. by rewrite IH.
  - destruct (Py.split sep s) as [|w ws]; [done|].
    destruct ws as [|w' ws].
    + simpl in *. by rewrite IH.
    + rewrite join_cons_cons in *. by rewrite app_String, IH.
Qed.

Lemma split_pieces_free (sep : ascii) (s : string) :
  Forall (free_of sep) (Py.split sep s).
Proof.
  unfold free_of. induction s as [|c s IH]; [by repeat constructor|].
  cbn [Py.split]. destruct (decide (c = sep)) as [->|Hc].
  - constructor; [constructor|done].
  - destruct (Py.split sep s) as [|w ws]; [by repeat constructor|].
    apply Forall_cons in IH as [Hw Hws]. constructor; [|done].
    simpl. by constructor.
Qed.

(** X9. The title is cut at its colons.  With exactly one colon, subfield a
    is the part before it followed by space, colon, space, and subfield b
    the part after it followed by a comma and a space.  With no colon or
    with more than one, only the part before the first colon is kept, in
    subfield a, followed by a comma and a space. *)
Theorem title_subfields (s : self) (r0 : row) (rest : list row) (t : string) :
  metadata s = r0 :: rest → r0 !! "title" = Some t →
  ∃ s0 tail,
    t = Py.join ":" (s0 :: tail) ∧
    Forall (free_of ":") (s0 :: tail) ∧
    get_title s =
    Ok (match tail with
        | [s1] => [Str "a"; Str (s0 +:+ " : "); Str "b"; Str (s1 +:+ ", ")]
        | _ => [Str "a"; Str (s0 +:+ ", ")]
        end).
Proof.
  intros Hm Ht. unfold get_title. rewrite Hm.
  change (index (r0 :: rest) 0) with (Ok r0). rewrite bind_Ok_l.
  unfold getitem. rewrite Ht, bind_Ok_l.
  pose proof (join_split ":" t) as Hjoin.
  pose proof (split_pieces_free ":" t) as Hfree.
  destruct (Py.split ":" t) as [|s0 tail] eqn:Hsplit;
    [by apply split_not_nil in Hsplit|].
  exists s0, tail. split_and!; [done..|].
  change (index (s0 :: tail) 0) with (Ok s0). rewrite bind_Ok_l.
  destruct tail as [|s1 [|s2 tail]]; done.
Qed.

Lemma title_subfields_witness :
  let r0 : row := {[ "title" := "Papers: letters" ]} in
  ∃ s0 tail,
    "Papers: letters" = Py.join ":" (s0 :: tail) ∧
    Forall (free_of ":") (s0 :: tail) ∧
    get_title (Self [r0] false 5 ∅) =
    Ok (match tail with
        | [s1] => [Str "a"; Str (s0 +:+ " : "); Str "b"; Str (s1 +:+ ", ")]
        | _ => [Str "a"; Str (s0 +:+ ", ")]
        end).
Proof.
  intros r0.
  apply (title_subfields (Self [r0] false 5 ∅) r0 []); reflexivity.
Defined.
End derived_values.

Section counts_and_disclaimer.
Import MarcupRecord IslandoraRecord.

Lemma count_objects_cells (rows : list row) (arks : list string) (n : nat) :
  Forall2 (λ r a, r !! "ark" = Some a) rows arks →
  count_objects rows n = Ok (n + length (filter (λ a, a ≠ "") arks)).
Proof.
  intros Hrows. revert n.
  induction Hrows as [|r a rows arks Ha _ IH]; intros n.
  - simpl. f_equal. lia.
  - cbn [count_objects]. unfold getitem. rewrite Ha, bind_Ok_l, IH.
    rewrite filter_cons. destruct (decide (a ≠ "")); simpl; f_equal; lia.
Qed.

(** X10. The number of digital objects is the number of rows after the first
    whose ark is not empty; the first row is not counted, whatever its ark. *)
Theorem object_count_of_rows (s : self) (arks : list string) :
  Forall2 (λ r a, r !! "ark" = Some a) (drop 1 (metadata s)) arks →
  get_object_count s = Ok (length (filter (λ a, a ≠ "") arks)).
Proof. intros Hrows. unfold get_object_count. by rewrite (count_objects_cells _ arks). Qed.

Lemma object_count_of_rows_witness :
  let s := Self [{["ark" := "ark:/1"]}; {["ark" := "ark:/2"]}; {["ark" := ""]};
                 {["ark" := "ark:/4"]}] false 5 ∅ in
  get_object_count s = Ok (length (filter (λ a, a ≠ "") ["ark:/2"; ""; "ark:/4"])).
Proof.
  intros s. apply (object_count_of_rows s ["ark:/2"; ""; "ark:/4"]).
  repeat constructor.
Defined.

Lemma first_disclaimer_value (pre : list row) (r : row) (post : list row) d :
  Forall (λ x, x !! "disclaimer" = Some "") pre →
  r !! "disclaimer" = Some d → d ≠ "" →
  first_disclaimer (pre ++ r :: post) = Ok d.
Proof.
  intros Hpre Hr Hd. induction Hpre as [|x pre Hx _ IH].
  - cbn [app first_disclaimer]. unfold getitem. rewrite Hr, bind_Ok_l.
    by rewrite decide_True.
  - cbn [app first_disclaimer]. unfold getitem at 1. rewrite Hx, bind_Ok_l.
    by rewrite decide_False by (by intros []).
Qed.

Lemma first_disclaimer_empty (rows : list row) :
  Forall (λ x, x !! "disclaimer" = Some "") rows →
  first_disclaimer rows = Ok "".
Proof.
  induction 1 as [|x rows Hx _ IH]; [done|].
  cbn [first_disclaimer]. unfold getitem at 1. rewrite Hx, bind_Ok_l.
  by rewrite decide_False by (by intros []).
Qed.

(** X11. The disclaimer is the first non-empty disclaimer in the order of
    the rows, and the empty string when every row has an empty one.  When
    the first row has no disclaimer column it is the empty string, whatever
    the other rows hold. *)
Theorem disclaimer_value (s : self) (r0 : row) (rest : list row) :
  metadata s = r0 :: rest →
  (r0 !! "disclaimer" = None → get_disclaimer s = Ok "") ∧
  (Forall (λ x, x !! "disclaimer" = Some "") (metadata s) →
   get_disclaimer s = Ok "") ∧
  (∀ pre r post d,
     metadata s = pre ++ r :: post →
     Forall (λ x, x !! "disclaimer" = Some "") pre →
     r !! "disclaimer" = Some d → d ≠ "" →
     get_disclaimer s = Ok d).
Proof.
  intros Hm. unfold get_disclaimer. rewrite Hm.
  change (index (r0 :: rest) 0) with (Ok r0). rewrite bind_Ok_l. split_and!.
  - by intros ->.
  - intros Hall. pose proof Hall as [Hr0 _]%Forall_cons. rewrite Hr0.
    by apply first_disclaimer_empty.
  - intros pre r post d Heq Hpre Hr Hd.
    assert (is_Some (r0 !! "disclaimer")) as [d0 Hd0].
    { destruct pre as [|x pre]; simplify_eq/=; [by eauto|].
      apply Forall_cons in Hpre as [Hx _]. by eauto. }
    rewrite Hd0, Heq. by apply first_disclaimer_value.
Qed.

Lemma disclaimer_value_witness :
  let r0 : row := {[ "disclaimer" := "" ]} in
  let r1 : row := {[ "disclaimer" := "Historical language." ]} in
  let s := Self [r0; r1] false 5 ∅ in
  (r0 !! "disclaimer" = None → get_disclaimer s = Ok "") ∧
  (Forall (λ x, x !! "disclaimer" = Some "") (metadata s) →
   get_disclaimer s = Ok "") ∧
  (∀ pre r post d,
     metadata s = pre ++ r :: post →
     Forall (λ x, x !! "disclaimer" = Some "") pre →
     r !! "disclaimer" = Some d → d ≠ "" →
     get_disclaimer s = Ok d).
Proof.
  intros r0 r1 s. by apply (disclaimer_value s r0 [r1]).
Defined.
End counts_and_disclaimer.

(** ** Finding aids and the citation *)

Section links_and_citation.
Import MarcupRecord IslandoraRecord.

Lemma length_take_to_min {A} (m : Z) (l : list A) :
  (0 ≤ m)%Z → length (Py.take_to m l) = Z.to_nat m `min` length l.
Proof.
  intros Hm. unfold Py.take_to.
  rewrite (proj2 (Z.leb_le 0 m)) by done. by rewrite length_take.
Qed.

Lemma bind_singleton_fmap {A B} (f : A → B) (l : list A) :
  (l ≫= λ x, [f x]) = f <$> l.
Proof. induction l as [|x l IH]; [done|]. by rewrite bind_cons, IH. Qed.

(** X12. The links to the finding aids pair the physical collections and
    the finding-aid arks by their rank in the two aggregated lists, each cut
    to [max]: the field of rank i names the collection of rank i, in title
    case, and links the ark of rank i.  For a [max] that is not negative
    there are as many links as the shortest of [max] and the two lists. *)
Theorem finding_aid_links_by_rank (s : self) (fields : list Field) :
  let collections := Py.take_to (max s) (get_original_collections s) in
  let arks := Py.take_to (max s) (get_original_arks s) in
  add_finding_aid_links s fields
  = fields ++
    ((λ ca : string * string,
        DataField "856" (Str "4", Str "2")
          [(Str "3", Str ("Finding aid for " +:+ title_case ca.1));
           (Str "u", Str ca.2)]) <$> zip collections arks) ∧
  ((0 ≤ max s)%Z →
   length (add_finding_aid_links s fields)
   = length fields +
     Z.to_nat (max s) `min` (length (get_original_collections s)
                             `min` length (get_original_arks s))).
Proof.
  intros collections arks.
  assert (add_finding_aid_links s fields
          = fields ++
            ((λ ca : string * string,
                DataField "856" (Str "4", Str "2")
                  [(Str "3", Str ("Finding aid for " +:+ title_case ca.1));
                   (Str "u", Str ca.2)]) <$> zip collections arks)) as Heq.
  { unfold add_finding_aid_links. fold collections arks.
    rewrite (foldl_append _ (λ ca : string * string,
               [DataField "856" (Str "4", Str "2")
                  [(Str "3", Str ("Finding aid for " +:+ title_case ca.1));
                   (Str "u", Str ca.2)]])); [|by intros fs [c a]].
    by rewrite bind_singleton_fmap. }
  split; [done|]. intros Hmax.
  rewrite Heq, length_app, length_fmap, length_zip.
  subst collections arks. rewrite !length_take_to_min by done. lia.
Qed.

(** X13. When there is no physical collection or no call number to cite,
    the citation is the name of the digital collection, followed by a comma,
    a space, a second comma and the fixed words on the library. *)
Theorem citation_without_originals (s : self) (digital_collection : string)
    (fields : list Field) :
  get_original_collections s = [] ∨ get_original_call_numbers s = [] →
  add_preferred_citation s digital_collection fields
  = fields ++
    [DataField "524" (Str " ", Str " ")
       [(Str "a",
         Str (digital_collection +:+
              ", , Special Collections and University Archives, Iowa State University Library."))]].
Proof.
  intros Hnone. unfold add_preferred_citation.
  assert (zip (Py.take_to (max s) (get_original_collections s))
              (Py.take_to (max s) (get_original_call_numbers s)) = []) as ->.
  { destruct Hnone as [-> | ->].
    - unfold Py.take_to. by destruct (0 <=? max s)%Z; rewrite take_nil.
    - unfold Py.take_to.
      destruct (0 <=? max s)%Z; rewrite take_nil; apply zip_with_nil_r. }
  done.
Qed.

Lemma citation_without_originals_witness :
  add_preferred_citation (Self two_language_rows false 5 ∅) "Papers online" []
  = [] ++
    [DataField "524" (Str " ", Str " ")
       [(Str "a",
         Str ("Papers online" +:+
              ", , Special Collections and University Archives, Iowa State University Library."))]].
Proof.
  apply (citation_without_originals (Self two_language_rows false 5 ∅)).
  left. by vm_compute.
Defined.
End links_and_citation.

(** ** More on the title-case transform *)

Section title_case_more.
Import MarcupRecord.
Implicit Types (w : string) (ws : list string) (c : ascii).

Ltac ascii_cases c := destruct c as [[|] [|] [|] [|] [|] [|] [|] [|]].

Lemma to_upper_to_lower c : Py.to_upper (Py.to_lower c) = Py.to_upper c.
Proof. ascii_cases c; by vm_compute. Qed.

Lemma to_upper_idemp c : Py.to_upper (Py.to_upper c) = Py.to_upper c.
Proof. ascii_cases c; by vm_compute. Qed.

Lemma capitalize_lower w : capitalize (Py.lower w) = capitalize w.
Proof.
  destruct w as [|c w]; [done|]. simpl.
  by rewrite to_upper_to_lower, lower_idemp.
Qed.

Lemma capitalize_idemp w : capitalize (capitalize w) = capitalize w.
Proof.
  destruct w as [|c w]; [done|]. simpl.
  by rewrite to_upper_idemp, lower_idemp.
Qed.

Lemma word_lower w : word w → word (Py.lower w).
Proof.
  intros [Hne Hw]. split; [by destruct w|by apply letters_lower].
Qed.

(** The transform on words of letters, word by word. *)
Lemma title_case_join ws :
  Forall word ws →
  title_case (Py.join " " ws) =
  Py.join " "
    (imap (λ i w,
             if decide (0 < i < length ws - 1 ∧ capitalize w ∈ dont_capitalize)
             then Py.lower w else capitalize w)
          ws).
Proof.
  intros Hws. unfold title_case. rewrite title_join by done.
  assert (Forall word (capitalize <$> ws)) as Hcap.
  { apply Forall_fmap. eapply Forall_impl; [done|]. apply word_capitalize. }
  rewrite split_ws_join by done. rewrite length_fmap, imap_fmap.
  f_equal. apply imap_ext. intros i w Hi. simpl.
  rewrite title_case_word_plain.
  - by rewrite lower_capitalize.
  - apply word_capitalize. rewrite Forall_forall in Hws.
    by eapply Hws, list_elem_of_lookup_2.
Qed.

(** X14. On words of letters separated by single spaces the transform is
    idempotent: applied to its own result it changes nothing. *)
Theorem title_case_idempotent ws :
  Forall word ws →
  title_case (title_case (Py.join " " ws)) = title_case (Py.join " " ws).
Proof.
  intros Hws. rewrite (title_case_join ws) by done.
  set (f := λ (i : nat) w,
              if decide (0 < i < length ws - 1 ∧ capitalize w ∈ dont_capitalize)
              then Py.lower w else capitalize w).
  assert (Forall word (imap f ws)) as Hws'.
  { apply Forall_forall. intros w' (i & w & -> & Hi)%elem_of_lookup_imap.
    assert (word w) as Hw.
    { rewrite Forall_forall in Hws. by eapply Hws, list_elem_of_lookup_2. }
    unfold f. case_decide; [by apply word_lower|by apply word_capitalize]. }
  rewrite (title_case_join (imap f ws)) by done. f_equal.
  rewrite length_imap. apply list_eq. intros i.
  rewrite !list_lookup_imap. destruct (ws !! i) as [w|]; [|done]. simpl.
  f_equal. unfold f.
  destruct (decide (0 < i < length ws - 1 ∧ capitalize w ∈ dont_capitalize))
    as [Hc|Hc].
  - rewrite capitalize_lower, decide_True by done. apply lower_idemp.
  - by rewrite capitalize_idemp, decide_False.
Qed.

Lemma title_case_idempotent_witness :
  title_case (title_case (Py.join " " ["war"; "and"; "peace"]))
  = title_case (Py.join " " ["war"; "and"; "peace"]).
Proof.
  apply (title_case_idempotent ["war"; "and"; "peace"]).
  repeat constructor; by vm_compute.
Defined.

(** X15. In a word with two apostrophes or more, everything from the second
    apostrophe on is dropped: the word is treated as if it ended there. *)
Theorem title_case_word_second_apostrophe (len i : nat) (p0 p1 rest : string) :
  free_of "'" p0 → free_of "'" p1 →
  title_case_word len i (p0 +:+ "'" +:+ p1 +:+ "'" +:+ rest)
  = title_case_word len i (p0 +:+ "'" +:+ p1).
Proof.
  intros Hp0 Hp1. unfold title_case_word.
  change ("'" +:+ p1 +:+ "'" +:+ rest) with (String "'" (p1 +:+ String "'" rest)).
  change ("'" +:+ p1) with (String "'" p1).
  rewrite !split_app_separator, split_free_of by done.
  reflexivity.
Qed.

Lemma title_case_word_second_apostrophe_witness :
  title_case_word 1 0 ("O" +:+ "'" +:+ "Neil" +:+ "'" +:+ "S")
  = title_case_word 1 0 ("O" +:+ "'" +:+ "Neil").
Proof.
  apply (title_case_word_second_apostrophe 1 0 "O" "Neil" "S");
    repeat constructor; by vm_compute.
Defined.
End title_case_more.

(** ** The second definition of the aggregator *)

Section second_aggregator.
Import MarcupRecord.

Lemma foldl_pointwise_in {A B} (f g : A → B → A) (l : list B) a :
  (∀ a x, x ∈ l → f a x = g a x) → foldl f a l = foldl g a l.
Proof.
  revert a. induction l as [|x l IH]; intros a Hfg; [done|].
  simpl. rewrite Hfg by left. apply IH. intros a' y Hy. apply Hfg. by right.
Qed.

Lemma second_get_terms_row_scan column terms_counter (r : row) :
  MarcupRecord2._get_terms_row column terms_counter r
  = foldl _update_term_counting_dict terms_counter
      (cell_terms ";" (default " " (r !! column))).
Proof.
  unfold MarcupRecord2._get_terms_row, cell_terms.
  case_decide; [|done]. by destruct (Py.contains _ _).
Qed.

Lemma second_get_terms_scan (rows : list row) (args : list string) :
  MarcupRecord2._get_terms rows args
  = most_common (foldl _update_term_counting_dict []
                   (column ← args; r ← rows;
                    cell_terms ";" (default " " (r !! column)))).
Proof.
  unfold MarcupRecord2._get_terms. f_equal.
  rewrite foldl_bind. apply foldl_pointwise. intros tc column.
  rewrite foldl_bind. apply foldl_pointwise. intros tc' r.
  apply second_get_terms_row_scan.
Qed.

(** X16. The aggregator of the second [MarcupRecord] returns what the first
    one returns for the separator [;] whenever every row has every requested
    column.  A row without a requested column makes it return the term made
    of a single space. *)
Theorem second_get_terms_agrees (rows : list row) (args : list string) :
  ((∀ column r, column ∈ args → r ∈ rows → is_Some (r !! column)) →
   MarcupRecord2._get_terms rows args = MarcupRecord._get_terms rows args ";") ∧
  (∀ column r, column ∈ args → r ∈ rows → r !! column = None →
               " " ∈ MarcupRecord2._get_terms rows args).
Proof.
  split.
  - intros Hall. unfold MarcupRecord2._get_terms, _get_terms. f_equal.
    apply foldl_pointwise_in. intros tc column Hcolumn.
    apply foldl_pointwise_in. intros tc' r Hr.
    destruct (Hall column r Hcolumn Hr) as [t Ht].
    unfold MarcupRecord2._get_terms_row, _get_terms_row. by rewrite Ht.
  - intros column r Hcolumn Hr Hnone. rewrite second_get_terms_scan.
    rewrite most_common_Permutation, elem_of_first_seen.
    apply list_elem_of_bind. exists column. split; [|done].
    apply list_elem_of_bind. exists r. split; [|done].
    rewrite Hnone. by left.
Qed.
End second_aggregator.

(** ** The physical collections *)

Section physical_collections.
Import MarcupRecord IslandoraRecord.

Lemma increment_count_fmap (f : string → collection_info) (L : list string) x :
  NoDup L →
  increment_count ((λ k, (k, f k)) <$> L) x
  = (λ k, (k, if decide (k = x)
              then CollectionInfo (S (info_count (f k))) (info_call_number (f k))
              else f k)) <$> L.
Proof.
  induction 1 as [|k L Hk HL IH]; [done|].
  rewrite !fmap_cons. cbn [increment_count].
  destruct (decide (k = x)) as [->|Hne].
  - f_equal. apply list_fmap_ext. intros _ k' Hk'%list_elem_of_lookup_2.
    rewrite decide_False; [done|]. by intros ->.
  - by rewrite IH.
Qed.

Lemma first_call_number_snoc_in k pairs p :
  k ∈ pairs.*1 →
  first_call_number k (pairs ++ [p]) = first_call_number k pairs.
Proof.
  unfold first_call_number. intros (q & -> & Hq)%list_elem_of_fmap.
  rewrite filter_app.
  assert (q ∈ filter (λ p0 : string * string, p0.1 = q.1) pairs) as Hin
    by by apply list_elem_of_filter.
  destruct (filter _ pairs); [by apply elem_of_nil in Hin|done].
Qed.

Lemma first_call_number_snoc_new c n pairs :
  c ∉ pairs.*1 → first_call_number c (pairs ++ [(c, n)]) = n.
Proof.
  unfold first_call_number. intros Hc. rewrite filter_app.
  assert (filter (λ p0 : string * string, p0.1 = c) pairs = []) as ->.
  { induction pairs as [|q pairs IH]; [done|].
    rewrite fmap_cons, not_elem_of_cons in Hc. destruct Hc as [Hq Hc].
    rewrite filter_cons, decide_False by (by intros Heq; apply Hq).
    by apply IH. }
  rewrite filter_cons. by rewrite decide_True.
Qed.

Lemma physical_collections_of_keys (pairs : list (string * string)) :
  (physical_collections_of pairs).*1 = first_seen pairs.*1.
Proof.
  unfold physical_collections_of. rewrite <-list_fmap_compose.
  induction (first_seen pairs.*1) as [|k l IH]; [done|].
  rewrite fmap_cons. by f_equal.
Qed.

Lemma physical_collections_of_snoc (pairs : list (string * string)) c n :
  (if decide (c ∈ (physical_collections_of pairs).*1)
   then increment_count (physical_collections_of pairs) c
   else physical_collections_of pairs ++ [(c, CollectionInfo 1 n)])
  = physical_collections_of (pairs ++ [(c, n)]).
Proof.
  rewrite physical_collections_of_keys.
  unfold physical_collections_of.
  rewrite fmap_app. simpl. rewrite first_seen_snoc.
  destruct (decide (c ∈ first_seen pairs.*1)) as [Hc|Hc].
  - rewrite increment_count_fmap by apply NoDup_first_seen.
    apply list_fmap_ext. intros _ k Hk%list_elem_of_lookup_2.
    rewrite elem_of_first_seen in Hk.
    rewrite occurrences_snoc, first_call_number_snoc_in by done.
    simpl. by case_decide.
  - rewrite elem_of_first_seen in Hc. rewrite fmap_app. simpl. f_equal.
    + apply list_fmap_ext. intros _ k Hk%list_elem_of_lookup_2.
      rewrite elem_of_first_seen in Hk.
      rewrite occurrences_snoc, first_call_number_snoc_in by done.
      rewrite decide_False; [done|]. by intros ->.
    + rewrite occurrences_snoc, decide_True by done.
      rewrite first_call_number_snoc_new by done.
      destruct (occurrences c pairs.*1) eqn:Ho; [done|].
      exfalso. apply Hc, occurrences_pos. lia.
Qed.

Lemma count_physical_collections_cells (rows : list row)
    (pairs before : list (string * string)) :
  Forall2 (λ r p, r !! "archival_collection" = Some p.1 ∧
                  r !! "archival_call_number" = Some p.2) rows pairs →
  count_physical_collections rows (physical_collections_of before)
  = Ok (physical_collections_of (before ++ pairs)).
Proof.
  intros Hrows. revert before.
  induction Hrows as [|r [c n] rows pairs [Hc Hn] _ IH]; intros before.
  - by rewrite app_nil_r.
  - cbn [count_physical_collections]. unfold count_physical_collection, getitem.
    simpl in Hc, Hn. rewrite Hc, bind_Ok_l, Hn.
    pose proof (physical_collections_of_snoc before c n) as Hstep.
    destruct (decide (c ∈ (physical_collections_of before).*1));
      rewrite ?bind_Ok_l, Hstep, IH; by rewrite <-app_assoc.
Qed.

(** X17. When every row has the columns archival_collection and
    archival_call_number, [get_physical_collection_info] returns one entry
    for each distinct collection, with the number of rows of that
    collection and the call number of the first of these rows; no entry
    stands in front of one with a larger count. *)
Theorem physical_collection_info_of_rows (s : self)
    (pairs : list (string * string)) :
  Forall2 (λ r p, r !! "archival_collection" = Some p.1 ∧
                  r !! "archival_call_number" = Some p.2) (metadata s) pairs →
  ∃ info,
    get_physical_collection_info s = Ok info ∧
    info ≡ₚ physical_collections_of pairs ∧
    NoDup info.*1 ∧
    (∀ k, k ∈ info.*1 ↔ k ∈ pairs.*1) ∧
    (∀ i j x y, i < j → info !! i = Some x → info !! j = Some y →
                info_count y.2 ≤ info_count x.2).
Proof.
  intros Hrows. unfold get_physical_collection_info.
  pose proof (count_physical_collections_cells (metadata s) pairs [] Hrows)
    as Hcount.
  change (physical_collections_of []) with (@nil (string * collection_info))
    in Hcount.
  rewrite Hcount, bind_Ok_l. simpl in *.
  eexists. split; [reflexivity|].
  set (before := λ x y : string * collection_info,
                   Nat.leb (info_count y.2) (info_count x.2)).
  assert (Py.sorted before (physical_collections_of pairs)
          ≡ₚ physical_collections_of pairs) as Hperm
    by apply sorted_Permutation.
  repeat split.
  - done.
  - rewrite Hperm, physical_collections_of_keys. apply NoDup_first_seen.
  - rewrite Hperm, physical_collections_of_keys. apply elem_of_first_seen.
  - rewrite Hperm, physical_collections_of_keys. apply elem_of_first_seen.
  - intros i j x y Hij Hx Hy.
    assert (before x y = true) as Hxy.
    { eapply (StronglySorted_lookup (λ a b, before a b = true)); [|done..].
      apply sorted_StronglySorted; unfold before.
      - intros a b Hab. apply Nat.leb_le. apply Nat.leb_gt in Hab. lia.
      - intros a b c Hab Hbc. apply Nat.leb_le.
        apply Nat.leb_le in Hab, Hbc. lia. }
    by apply Nat.leb_le in Hxy.
Qed.

Lemma physical_collection_info_of_rows_witness :
  let rows : list row :=
    [ {["archival_collection" := "Papers"; "archival_call_number" := "RS 1"]};
      {["archival_collection" := "Films"; "archival_call_number" := "RS 2"]};
      {["archival_collection" := "Films"; "archival_call_number" := "RS 3"]} ] in
  ∃ info,
    get_physical_collection_info (Self rows false 5 ∅) = Ok info ∧
    info ≡ₚ physical_collections_of
              [("Papers", "RS 1"); ("Films", "RS 2"); ("Films", "RS 3")] ∧
    NoDup info.*1 ∧
    (∀ k, k ∈ info.*1 ↔ k ∈ ["Papers"; "Films"; "Films"]) ∧
    (∀ i j x y, i < j → info !! i = Some x → info !! j = Some y →
                info_count y.2 ≤ info_count x.2).
Proof.
  intros rows.
  apply (physical_collection_info_of_rows (Self rows false 5 ∅)
           [("Papers", "RS 1"); ("Films", "RS 2"); ("Films", "RS 3")]).
  repeat constructor.
Defined.
End physical_collections.

(** ** The columns the record depends on *)

Section columns.
Import MarcupRecord IslandoraRecord.

Lemma foldl_agree {A} (f : A → row → A) (P : row → row → Prop) rows rows' :
  (∀ acc r r', P r r' → f acc r = f acc r') →
  Forall2 P rows rows' →
  ∀ acc, foldl f acc rows = foldl f acc rows'.
Proof.
  intros Hf. induction 1 as [|r r' rows rows' Hr _ IH]; intros acc; [done|].
  simpl. rewrite (Hf _ _ _ Hr). apply IH.
Qed.

Lemma agree_on_lookup columns (r r' : row) column :
  agree_on columns r r' → column ∈ columns → r !! column = r' !! column.
Proof. unfold agree_on. rewrite Forall_forall. auto. Qed.

Lemma get_terms_agree columns rows rows' args sep :
  Forall2 (agree_on columns) rows rows' →
  Forall (λ column, column ∈ columns) args →
  _get_terms rows args sep = _get_terms rows' args sep.
Proof.
  intros Hrows Hargs. unfold _get_terms. f_equal.
  apply foldl_pointwise_in. intros acc column Hcolumn.
  apply (foldl_agree _ (agree_on columns)); [|done].
  intros acc' r r' Hr. unfold _get_terms_row.
  rewrite Forall_forall in Hargs.
  by rewrite (agree_on_lookup columns r r' column Hr) by auto.
Qed.

Lemma get_terms_and_uris_agree columns rows rows' column :
  Forall2 (agree_on columns) rows rows' →
  column ∈ columns → column +:+ "_valueURI" ∈ columns →
  _get_terms_and_uris rows [column] = _get_terms_and_uris rows' [column].
Proof.
  intros Hrows Hcolumn Huri. unfold _get_terms_and_uris. f_equal. simpl.
  apply (foldl_agree _ (agree_on columns)); [|done].
  intros acc' r r' Hr. unfold _get_terms_and_uris_row.
  rewrite (agree_on_lookup columns r r' column Hr) by done.
  by rewrite (agree_on_lookup columns r r' _ Hr) by done.
Qed.

Lemma getitem_agree columns (r r' : row) column :
  agree_on columns r r' → column ∈ columns → getitem r column = getitem r' column.
Proof. intros Hr Hc. unfold getitem. by rewrite (agree_on_lookup _ _ _ _ Hr Hc). Qed.

Lemma first_disclaimer_agree columns rows rows' :
  Forall2 (agree_on columns) rows rows' → "disclaimer" ∈ columns →
  first_disclaimer rows = first_disclaimer rows'.
Proof.
  intros Hrows Hc. induction Hrows as [|r r' rows rows' Hr _ IH]; [done|].
  cbn [first_disclaimer]. rewrite (getitem_agree _ _ _ _ Hr Hc).
  destruct (getitem r' "disclaimer") as [d|]; [|done].
  rewrite !bind_Ok_l. by case_decide.
Qed.

Lemma count_objects_agree columns rows rows' count :
  Forall2 (agree_on columns) rows rows' → "ark" ∈ columns →
  count_objects rows count = count_objects rows' count.
Proof.
  intros Hrows Hc. revert count.
  induction Hrows as [|r r' rows rows' Hr _ IH]; intros count; [done|].
  cbn [count_objects]. rewrite (getitem_agree _ _ _ _ Hr Hc).
  destruct (getitem r' "ark") as [d|]; [|done].
  rewrite !bind_Ok_l. apply IH.
Qed.

Lemma collect_years_agree columns rows rows' :
  Forall2 (agree_on columns) rows rows' → "date_original" ∈ columns →
  collect_years rows = collect_years rows'.
Proof.
  intros Hrows Hc. induction Hrows as [|r r' rows rows' Hr _ IH]; [done|].
  cbn [collect_years]. by rewrite (getitem_agree _ _ _ _ Hr Hc), IH.
Qed.

Lemma index_agree columns rows rows' :
  Forall2 (agree_on columns) rows rows' →
  (index rows 0 = Raise (IndexError "list index out of range") ∧
   index rows' 0 = Raise (IndexError "list index out of range")) ∨
  ∃ r r', index rows 0 = Ok r ∧ index rows' 0 = Ok r' ∧ agree_on columns r r'.
Proof. destruct 1 as [|r r' rows rows' Hr _]; [by left|right; by exists r, r']. Qed.

Ltac column :=
  unfold columns_read;
  repeat first [apply Forall_nil_2 | apply Forall_cons_2
               | apply list_elem_of_here | apply list_elem_of_further].

Ltac run :=
  lazymatch goal with
  | |- (?e ≫= _) = (?e ≫= _) =>
      let x := fresh "x" in
      destruct e as [x|]; [rewrite !bind_Ok_l|reflexivity]
  end.

(** X18. The record, and the exception when none is built, depend on the
    rows only through the columns the constructor reads: two lists of rows
    that agree, row by row, on these columns give the same result.  A
    column outside of them, such as event_subject or
    geographic_subject_geonames, changes nothing. *)
Theorem record_depends_on_columns_read (table : gmap string string)
    (today : string) (rows rows' : list row) (max : Z) :
  Forall2 (agree_on columns_read) rows rows' →
  __init__ table today rows max = __init__ table today rows' max.
Proof.
  intros Hrows.
  pose (s := Self rows false max table). pose (s' := Self rows' false max table).
  assert (∀ args, Forall (λ column, column ∈ columns_read) args →
                  get_terms s args = get_terms s' args)
    as Hterms by (intros args Hargs; by apply (get_terms_agree columns_read)).
  assert (get_personal_name_subjects s = get_personal_name_subjects s') as Hpn
    by (apply (get_terms_and_uris_agree columns_read); [done|column..]).
  assert (get_corporate_name_subjects s = get_corporate_name_subjects s') as Hcn
    by (apply (get_terms_and_uris_agree columns_read); [done|column..]).
  assert (get_topic_subjects s = get_topic_subjects s') as Htopic
    by (apply Hterms; column).
  assert (get_geographic_terms s = get_geographic_terms s') as Hgeo
    by (apply Hterms; column).
  assert (get_genre_forms s = get_genre_forms s') as Hgenre
    by (apply Hterms; column).
  assert (get_personal_creators_contributors s
          = get_personal_creators_contributors s') as Hpc
    by (apply Hterms; column).
  assert (get_corporate_creators_contributors s
          = get_corporate_creators_contributors s') as Hcc
    by (apply Hterms; column).
  assert (get_original_collections s = get_original_collections s') as Hoc
    by (apply Hterms; column).
  assert (get_original_call_numbers s = get_original_call_numbers s') as Hon
    by (apply Hterms; column).
  assert (get_original_arks s = get_original_arks s') as Hoa
    by (apply Hterms; column).
  assert (get_languages s = get_languages s') as Hlang
    by (apply Hterms; column).
  assert (get_years s = get_years s') as Hyears.
  { unfold get_years. simpl.
    rewrite (collect_years_agree columns_read rows rows'); [done..|column]. }
  assert (get_object_count s = get_object_count s') as Hcount.
  { unfold get_object_count. simpl.
    apply (count_objects_agree columns_read); [by apply Forall2_drop|column]. }
  unfold __init__. cbv zeta. fold s s'.
  assert (∀ fields, add_finding_aid_links s fields
                    = add_finding_aid_links s' fields) as Hlinks
    by (intros fields; unfold add_finding_aid_links; by rewrite Hoc, Hoa).
  assert (∀ fields, add_corperate_creators_contributors s fields
                    = add_corperate_creators_contributors s' fields) as H710
    by (intros fields; unfold add_corperate_creators_contributors;
        by rewrite Hcc).
  assert (∀ fields, add_personal_creators_contributors s fields
                    = add_personal_creators_contributors s' fields) as H700
    by (intros fields; unfold add_personal_creators_contributors;
        by rewrite Hpc).
  assert (∀ fields, add_genre_forms s fields = add_genre_forms s' fields)
    as H655 by (intros fields; unfold add_genre_forms; by rewrite Hgenre).
  assert (∀ fields, add_geographic_subjects s fields
                    = add_geographic_subjects s' fields) as H651
    by (intros fields; unfold add_geographic_subjects; by rewrite Hgeo).
  assert (∀ fields, add_topic_subjects s fields = add_topic_subjects s' fields)
    as H650 by (intros fields; unfold add_topic_subjects; by rewrite Htopic).
  assert (∀ fields, add_corporate_name_subjects s fields
                    = add_corporate_name_subjects s' fields) as H610
    by (intros fields; unfold add_corporate_name_subjects; by rewrite Hcn).
  assert (∀ fields, add_personal_name_subjects s fields
                    = add_personal_name_subjects s' fields) as H600
    by (intros fields; unfold add_personal_name_subjects; by rewrite Hpn).
  assert (∀ citation fields, add_preferred_citation s citation fields
                             = add_preferred_citation s' citation fields)
    as H524
    by (intros citation fields; unfold add_preferred_citation;
        by rewrite Hoc, Hon).
  assert (∀ fields, generate_008_field s today fields
                    = generate_008_field s' today fields) as H008
    by (intros fields; unfold generate_008_field, add_041_field;
        by rewrite Hlang).
  destruct (index_agree columns_read rows rows' Hrows)
    as [[Hnone Hnone']|(r & r' & Hr & Hr' & Hagree)].
  { unfold get_disclaimer. simpl. by rewrite Hnone, Hnone'. }
  assert (get_disclaimer s = get_disclaimer s') as Hdisclaimer.
  { unfold get_disclaimer. simpl. rewrite Hr, Hr', !bind_Ok_l.
    rewrite (agree_on_lookup columns_read r r' "disclaimer" Hagree) by column.
    destruct (r' !! "disclaimer"); [|done].
    apply (first_disclaimer_agree columns_read); [done|column]. }
  assert (get_collection_descriptions s = get_collection_descriptions s')
    as Hdescriptions.
  { unfold get_collection_descriptions. simpl. rewrite Hr, Hr', !bind_Ok_l.
    rewrite (getitem_agree columns_read r r' "description" Hagree) by column.
    by rewrite (getitem_agree columns_read r r' "title" Hagree) by column. }
  assert (get_title s = get_title s') as Htitle.
  { unfold get_title. simpl. rewrite Hr, Hr', !bind_Ok_l.
    by rewrite (getitem_agree columns_read r r' "title" Hagree) by column. }
  rewrite Hdisclaimer, Hr, Hr', Hyears, Hdescriptions, Htitle, Hcount.
  rewrite Hoc, Hon, Hgeo.
  run.
  rewrite (getitem_agree columns_read r r' "digital_collection" Hagree)
    by column.
  rewrite (getitem_agree columns_read r r' "title" Hagree) by column.
  rewrite (getitem_agree columns_read r r' "ark" Hagree) by column.
  run. run. run. destruct x2 as [bio_hist summary].
  rewrite H008. run. destruct x2 as [data fields]. run. run. run. run.
  rewrite Hlinks, H710, H700, H655, H651, H650, H610, H600, H524.
  reflexivity.
Qed.

Lemma record_depends_on_columns_read_witness :
  let r : row :=
    {[ "title" := "Papers: letters"; "description" := "Letters.";
       "digital_collection" := "Papers"; "ark" := "ark:/1";
       "date_original" := "1950"; "language" := "eng";
       "event_subject" := "Fair"; "geographic_subject_geonames" := "Ames" ]} in
  let r' : row :=
    {[ "title" := "Papers: letters"; "description" := "Letters.";
       "digital_collection" := "Papers"; "ark" := "ark:/1";
       "date_original" := "1950"; "language" := "eng";
       "event_subject" := "Parade"; "identifier" := "7" ]} in
  __init__ ∅ "261104" [r] 5 = __init__ ∅ "261104" [r'] 5.
Proof.
  intros r r'.
  apply (record_depends_on_columns_read ∅ "261104" [r] [r'] 5).
  constructor; [|constructor].
  unfold agree_on, columns_read.
  repeat (apply Forall_cons_2; [vm_compute; reflexivity|]).
  apply Forall_nil_2.
Defined.
End columns.
